(** * NMEA to GPX converter (converter.js): a shallow embedding and its properties

    The development follows the second listing of [src/converter.js], the one
    that merges RMC fixes with GGA altitudes: [parseNmeaCoordinate],
    [parseNmeaTime], [getDistance], [parseNmeaSentence] and [convertToGpx].

    ECMAScript values are modelled as follows.
    - A Number is an IEEE 754 binary64 value, [spec_float] with precision 53
      and maximal exponent 1024, with the library's correctly rounded
      operations.
    - A String is a [string]; its characters are the code units 0..255
      (NMEA 0183 is a 7-bit ASCII protocol).
    - A Date is its time value: [None] for the invalid date (time value NaN),
      [Some ms] for an integral number of milliseconds since the epoch.
    - [null] results of the decoders are [None] of an [option].
    - A [Map] is an association list in insertion order, keys compared with
      SameValueZero. *)

From Stdlib Require Import ZArith List Bool Ascii String Lia.
From Stdlib Require Import Floats.SpecFloat Numbers.DecimalString.
Import ListNotations.

Open Scope string_scope.
Open Scope Z_scope.

(** ** ECMAScript built-ins used by the converter *)

Module JS.

(** *** Numbers *)

Definition number := spec_float.

Definition prec : Z := 53.
Definition emax : Z := 1024.

Definition NaN : number := S754_nan.
Definition Infinity : number := S754_infinity false.

(** The Number nearest to an integer (ties to even). *)
Definition ofZ (z : Z) : number := binary_normalize prec emax z 0 false.

Definition add (x y : number) : number := SFadd prec emax x y.
Definition sub (x y : number) : number := SFsub prec emax x y.
Definition mul (x y : number) : number := SFmul prec emax x y.
Definition div (x y : number) : number := SFdiv prec emax x y.
Definition neg (x : number) : number := SFopp x.
Definition Math_sqrt (x : number) : number := SFsqrt prec emax x.

(** [x < y] and [x > y]; both are false when an operand is NaN. *)
Definition lt (x y : number) : bool := SFltb x y.
Definition gt (x y : number) : bool := SFltb y x.

(** [x <= y] and [x == y] on Numbers. *)
Definition lte (x y : number) : bool := SFleb x y.
Definition equal (x y : number) : bool := SFeqb x y.

Definition isNaN (x : number) : bool :=
  match x with S754_nan => true | _ => false end.

(** [Math.floor]. A finite value [m * 2^e] with [e < 0] is below [2^53], so
    its floor converts back exactly. *)
Definition Math_floor (x : number) : number :=
  match x with
  | S754_finite s m e =>
      if 0 <=? e then x
      else
        let q := Z.shiftr (Zpos m) (- e) in
        if s then
          (if Z.shiftl q (- e) =? Zpos m then ofZ (- q) else ofZ (- (q + 1)))
        else ofZ q
  | _ => x
  end.

(** The integral part of a finite Number (truncation towards zero), as
    ToIntegerOrInfinity computes it; [None] for NaN and the infinities. *)
Definition truncate (x : number) : option Z :=
  match x with
  | S754_zero _ => Some 0
  | S754_finite s m e =>
      let a := if 0 <=? e then Z.shiftl (Zpos m) e else Z.shiftr (Zpos m) (- e) in
      Some (if s then - a else a)
  | _ => None
  end.

(** *** Strings *)

Definition code (c : ascii) : N := N_of_ascii c.

(** WhiteSpace and LineTerminator code units below 256: TAB, LF, VT, FF, CR,
    SP and NBSP. *)
Definition isWhiteSpace (c : ascii) : bool :=
  let n := code c in
  ((9 <=? n) && (n <=? 13) || (n =? 32) || (n =? 160))%N.

Fixpoint trimStart (s : string) : string :=
  match s with
  | String c s' => if isWhiteSpace c then trimStart s' else s
  | EmptyString => EmptyString
  end.

Fixpoint trimEnd (s : string) : string :=
  match s with
  | String c s' =>
      match trimEnd s' with
      | EmptyString => if isWhiteSpace c then EmptyString else String c EmptyString
      | r => String c r
      end
  | EmptyString => EmptyString
  end.

Definition trim (s : string) : string := trimEnd (trimStart s).

(** [s.split(sep)] for a one-character separator. *)
Fixpoint split (sep : ascii) (s : string) : list string :=
  match s with
  | EmptyString => [EmptyString]
  | String c s' =>
      if Ascii.eqb c sep then EmptyString :: split sep s'
      else
        match split sep s' with
        | h :: t => String c h :: t
        | [] => [String c EmptyString]
        end
  end.

(** [s.startsWith(p)]. *)
Fixpoint startsWith (p s : string) : bool :=
  match p, s with
  | EmptyString, _ => true
  | String c p', String d s' => Ascii.eqb c d && startsWith p' s'
  | String _ _, EmptyString => false
  end.

(** [s.substring(a)] and [s.substring(a, b)] for constants [a <= b]; indices
    beyond the length are clamped. *)
Definition substringFrom (a : nat) (s : string) : string :=
  substring a (String.length s - a) s.

Definition substring2 (a b : nat) (s : string) : string :=
  substring a (b - a) s.

Definition isDigit (c : ascii) : bool :=
  let n := code c in ((48 <=? n) && (n <=? 57))%N.

Definition digitVal (c : ascii) : Z := Z.of_N (code c) - 48.

(** The longest prefix of decimal digits, and what follows it. *)
Fixpoint digitsPrefix (s : string) : string * string :=
  match s with
  | String c s' =>
      if isDigit c then
        let '(d, r) := digitsPrefix s' in (String c d, r)
      else (EmptyString, s)
  | EmptyString => (EmptyString, EmptyString)
  end.

Fixpoint digitsValue (acc : Z) (s : string) : Z :=
  match s with
  | String c s' => digitsValue (10 * acc + digitVal c) s'
  | EmptyString => acc
  end.

(** An optional sign: [true] for a leading minus. *)
Definition signPrefix (s : string) : bool * string :=
  match s with
  | String "-" r => (true, r)
  | String "+" r => (false, r)
  | _ => (false, s)
  end.

(** [parseInt(s, 10)]. *)
Definition parseInt (s : string) : number :=
  let '(sg, s1) := signPrefix (trimStart s) in
  let '(ds, _) := digitsPrefix s1 in
  match ds with
  | EmptyString => NaN
  | _ =>
      let v := digitsValue 0 ds in
      if v =? 0 then S754_zero sg else ofZ (if sg then - v else v)
  end.

(** The Number nearest to [M * 10^E], for a natural [M]. Beyond the decimal
    range of binary64 the result is an infinity or a zero; a negative power
    of ten is divided out with a sticky bit below 59 quotient bits, so
    that the final rounding is the rounding of the exact quotient. *)
Definition decimalToNumber (sg : bool) (M E : Z) : number :=
  if M <=? 0 then S754_zero sg
  else if 0 <=? E then
    if 400 <? E then S754_infinity sg
    else binary_round prec emax sg (Z.to_pos (M * 10 ^ E)) 0
  else if E + (Z.log2 M / 3 + 1) <? -400 then S754_zero sg
  else
    let D := 10 ^ (- E) in
    let k := Z.max 0 (Z.log2 D - Z.log2 M + 60) in
    let '(q, r) := Z.div_eucl (M * 2 ^ k) D in
    let mant := 2 * q + (if r =? 0 then 0 else 1) in
    binary_round prec emax sg (Z.to_pos mant) (- (k + 1)).

Definition isExponentIndicator (c : ascii) : bool :=
  Ascii.eqb c "e" || Ascii.eqb c "E".

(** The value of an ExponentPart at the head of [s], 0 when there is none
    (an indicator that no digit follows is not part of the literal). *)
Definition exponentPart (s : string) : Z :=
  match s with
  | String c r =>
      if isExponentIndicator c then
        let '(sg, r1) := signPrefix r in
        let '(ds, _) := digitsPrefix r1 in
        match ds with
        | EmptyString => 0
        | _ => let v := digitsValue 0 ds in if sg then - v else v
        end
      else 0
  | EmptyString => 0
  end.

(** [parseFloat(s)]: the longest prefix that is a StrDecimalLiteral. *)
Definition parseFloat (s : string) : number :=
  let '(sg, s1) := signPrefix (trimStart s) in
  if startsWith "Infinity" s1 then S754_infinity sg
  else
    let '(ip, r1) := digitsPrefix s1 in
    let '(fp, r2) :=
      match r1 with
      | String "." r => digitsPrefix r
      | _ => (EmptyString, r1)
      end in
    match ip ++ fp with
    | EmptyString => NaN
    | ds => decimalToNumber sg (digitsValue 0 ds)
              (exponentPart r2 - Z.of_nat (String.length fp))
    end.

(** *** Number to String *)

Definition digitsOfZ (z : Z) : string :=
  NilEmpty.string_of_uint (N.to_uint (Z.to_N z)).

Fixpoint zeros (n : nat) : string :=
  match n with
  | O => EmptyString
  | S n' => String "0" (zeros n')
  end.

(** [s.padStart(w, "0")]. *)
Definition padZeros (w : nat) (s : string) : string :=
  zeros (w - String.length s) ++ s.

(** Does the integer [v] convert to the Number [x]? *)
Definition roundsTo (x : number) (v : Z) : bool :=
  match SFcompare (ofZ v) x with
  | Some Eq => true
  | _ => false
  end.

(** The shortest decimal significand [s] (of [k] digits) and the exponent
    [n] with [s * 10^(n-k)] converting to [x], whose exact value is the
    integer [X] of [n] decimal digits; the candidate nearest to [X] when two
    of the same length convert to [x], the even one when they are as near. *)
Fixpoint shortestDigits (fuel : nat) (k : Z) (x : number) (X n : Z) : Z * Z * Z :=
  match fuel with
  | O => (n, X, n)
  | S fuel' =>
      let p := 10 ^ (n - k) in
      let lo := X / p in
      let hi := lo + 1 in
      let pickHi := if hi <? 10 ^ k then (k, hi, n) else (k, hi / 10, n + 1) in
      match roundsTo x (lo * p), roundsTo x (hi * p) with
      | true, false => (k, lo, n)
      | false, true => pickHi
      | true, true =>
          match (X - lo * p) ?= (hi * p - X) with
          | Lt => (k, lo, n)
          | Gt => pickHi
          | Eq => if Z.even lo then (k, lo, n) else pickHi
          end
      | false, false => shortestDigits fuel' (k + 1) x X n
      end
  end.

(** Number::toString of a positive finite Number [m * 2^e] that is at least
    [10^21]: exponential notation. *)
Definition toStringLarge (m : positive) (e : Z) : string :=
  let X := Z.shiftl (Zpos m) e in
  let n := Z.of_nat (String.length (digitsOfZ X)) in
  let '(k, s, n') := shortestDigits 17 1 (S754_finite false m e) X n in
  let ds := digitsOfZ s in
  let ex := "e+" ++ digitsOfZ (n' - 1) in
  match ds with
  | String c EmptyString => ds ++ ex
  | String c r => String c ("." ++ r) ++ ex
  | EmptyString => ex
  end.

(** The digits of [n] with a decimal point before the last [f] of them. *)
Definition fixedDigits (f : nat) (n : Z) : string :=
  let m := digitsOfZ n in
  match f with
  | O => m
  | _ =>
      let m' := padZeros (S f) m in
      let k := String.length m' in
      substring 0 (k - f) m' ++ "." ++ substring (k - f) f m'
  end.

(** [x.toFixed(f)]: [n] is the integer nearest to [x * 10^f], the larger
    one of two that are as near. *)
Definition toFixed (f : nat) (x : number) : string :=
  match x with
  | S754_nan => "NaN"
  | S754_infinity s => if s then "-Infinity" else "Infinity"
  | S754_zero _ => fixedDigits f 0
  | S754_finite s m e =>
      let sgn := if s then "-" else "" in
      if 0 <=? e then
        let X := Z.shiftl (Zpos m) e in
        if 10 ^ 21 <=? X then sgn ++ toStringLarge m e
        else sgn ++ fixedDigits f (X * 10 ^ Z.of_nat f)
      else
        let d := 2 ^ (- e) in
        if 10 ^ 21 * d <=? Zpos m then sgn ++ toStringLarge m e
        else sgn ++ fixedDigits f ((2 * Zpos m * 10 ^ Z.of_nat f + d) / (2 * d))
  end.

(** *** Dates

    A time value is NaN or an integer of magnitude at most 8.64e15, below
    2^53: on such values, and on the day and time-of-day components that
    the converter builds them from, binary64 arithmetic is exact, and a sum
    that leaves the exact range is beyond the TimeClip bound as well. Time
    values are therefore computed and compared as integers. *)

Definition Date := option Z.

Definition msPerDay : Z := 86400000.

Definition DayFromYear (y : Z) : Z :=
  365 * (y - 1970) + (y - 1969) / 4 - (y - 1901) / 100 + (y - 1601) / 400.

Definition InLeapYear (y : Z) : bool :=
  (y mod 4 =? 0) && (negb (y mod 100 =? 0) || (y mod 400 =? 0)).

(** The day within the year on which month [mn] (0 to 11) begins. *)
Definition monthStart (leap : bool) (mn : Z) : Z :=
  let l := if leap then 1 else 0 in
  match mn with
  | 0 => 0
  | 1 => 31
  | 2 => 59 + l
  | 3 => 90 + l
  | 4 => 120 + l
  | 5 => 151 + l
  | 6 => 181 + l
  | 7 => 212 + l
  | 8 => 243 + l
  | 9 => 273 + l
  | 10 => 304 + l
  | _ => 334 + l
  end.

Definition MakeFullYear (y : Z) : Z :=
  if (0 <=? y) && (y <=? 99) then 1900 + y else y.

Definition MakeDay (year month date : Z) : Z :=
  let ym := year + month / 12 in
  let mn := month mod 12 in
  DayFromYear ym + monthStart (InLeapYear ym) mn + date - 1.

Definition MakeTime (hour min sec ms : Z) : Z :=
  hour * 3600000 + min * 60000 + sec * 1000 + ms.

Definition MakeDate (day time : Z) : Z := day * msPerDay + time.

Definition TimeClip (t : Z) : Date :=
  if Z.abs t <=? 8640000000000000 then Some t else None.

(** [new Date(Date.UTC(year, month, date, hours, minutes, seconds))]. *)
Definition Date_UTC (year month date hours minutes seconds : number) : Date :=
  match truncate year, truncate month, truncate date,
        truncate hours, truncate minutes, truncate seconds with
  | Some y, Some m, Some dt, Some h, Some mi, Some s =>
      TimeClip (MakeDate (MakeDay (MakeFullYear y) m dt) (MakeTime h mi s 0))
  | _, _, _, _, _, _ => None
  end.

Definition getTime (d : Date) : number :=
  match d with
  | Some t => ofZ t
  | None => NaN
  end.

(** [a < b] and [a > b] on Dates compare the time values; false when one
    of them is NaN. *)
Definition Date_lt (a b : Date) : bool :=
  match a, b with
  | Some x, Some y => x <? y
  | _, _ => false
  end.

Definition Date_gt (a b : Date) : bool := Date_lt b a.

(** The sign of [a - b] on Dates; [None] when the difference is NaN. *)
Definition Date_minus (a b : Date) : option comparison :=
  match a, b with
  | Some x, Some y => Some (x ?= y)
  | _, _ => None
  end.

(** The largest year [y] with [DayFromYear y <= day]. *)
Definition YearFromDay (day : Z) : Z :=
  let y0 := 1970 + day * 400 / 146097 in
  if DayFromYear (y0 + 1) <=? day then y0 + 1
  else if DayFromYear y0 <=? day then y0
  else y0 - 1.

(** The month (0 to 11) of the day [dy] within a year. *)
Definition MonthFromDayWithinYear (leap : bool) (dy : Z) : Z :=
  let fix find (n : nat) (mn : Z) : Z :=
    match n with
    | O => mn
    | S n' => if monthStart leap mn <=? dy then mn else find n' (mn - 1)
    end in
  find 11%nat 11.

Definition pad (w : nat) (z : Z) : string := padZeros w (digitsOfZ z).

(** [Date.prototype.toISOString] of a valid time value. *)
Definition isoString (t : Z) : string :=
  let day := t / msPerDay in
  let tm := t mod msPerDay in
  let y := YearFromDay day in
  let dy := day - DayFromYear y in
  let leap := InLeapYear y in
  let mn := MonthFromDayWithinYear leap dy in
  let dt := dy - monthStart leap mn + 1 in
  let year :=
    if (0 <=? y) && (y <=? 9999) then pad 4 y
    else (if y <? 0 then "-" else "+") ++ pad 6 (Z.abs y) in
  year ++ "-" ++ pad 2 (mn + 1) ++ "-" ++ pad 2 dt ++ "T" ++
  pad 2 (tm / 3600000) ++ ":" ++ pad 2 (tm / 60000 mod 60) ++ ":" ++
  pad 2 (tm / 1000 mod 60) ++ "." ++ pad 3 (tm mod 1000) ++ "Z".

(** [toISOString] throws a RangeError on an invalid Date: [None] here. *)
Definition toISOString (d : Date) : option string := option_map isoString d.

End JS.

Import JS.

(** ** 1. Utility functions *)

(** [!s] on a string: true exactly on the empty string. *)
Definition falsy (s : string) : bool :=
  match s with
  | EmptyString => true
  | _ => false
  end.

(** [parseNmeaCoordinate(coordStr, direction)]; [None] is [null]. On
    strings nothing in the [try] block throws ([substring], [parseInt] and
    [parseFloat] return a value on every string), so the [catch] branch is
    never taken. *)
Definition parseNmeaCoordinate (coordStr direction : string) : option number :=
  if falsy coordStr || falsy direction then None
  else
    let '(degrees, minutes) :=
      if String.eqb direction "N" || String.eqb direction "S" then
        (parseInt (substring2 0 2 coordStr), parseFloat (substringFrom 2 coordStr))
      else
        (parseInt (substring2 0 3 coordStr), parseFloat (substringFrom 3 coordStr)) in
    let decimal := add degrees (div minutes (ofZ 60)) in
    Some (if String.eqb direction "S" || String.eqb direction "W"
          then neg decimal else decimal).

(** [parseNmeaTime(timeStr, dateStr)]; [None] is [null] and is returned by
    the [catch] branch only, which no pair of strings reaches. *)
Definition parseNmeaTime (timeStr dateStr : string) : option Date :=
  let hours := parseInt (substring2 0 2 timeStr) in
  let minutes := parseInt (substring2 2 4 timeStr) in
  let seconds := parseFloat (substringFrom 4 timeStr) in
  let day := parseInt (substring2 0 2 dateStr) in
  let month := sub (parseInt (substring2 2 4 dateStr)) (ofZ 1) in
  let year := add (ofZ 2000) (parseInt (substring2 4 6 dateStr)) in
  Some (Date_UTC year month day hours minutes (Math_floor seconds)).

(** [Math.PI], the binary64 value 0x1.921fb54442d18p+1. *)
Definition Math_PI : number := S754_finite false 7074237752028440 (-51).

(** ** 2. NMEA records and sentence parsing *)

(** The two shapes of the object that [parseNmeaSentence] returns: an RMC
    record defines [status], [time], [lat] and [lon]; a GGA record defines
    [status], [alt] and [time]. *)
Record rmcData := { status : string; time : Date; lat : number; lon : number }.
Record ggaData := { gga_status : string; alt : number; gga_time : Date }.

Inductive data :=
  | RMC (d : rmcData)
  | GGA (d : ggaData).

Definition data_time (d : data) : Date :=
  match d with
  | RMC r => time r
  | GGA g => gga_time g
  end.

(** [parts[i]]; the converter reads fields 1 to 9 only after it has checked
    that there are at least 10 of them, and field 0 always exists. *)
Definition part (i : nat) (parts : list string) : string := nth i parts EmptyString.

Definition sentenceTypeOf (parts : list string) : string :=
  substringFrom 3 (part 0 parts).

Definition parseNmeaSentence (line : string) : option data :=
  let parts := split "," line in
  let sentenceType := sentenceTypeOf parts in
  if String.eqb sentenceType "RMC" then
    if (List.length parts <? 10)%nat then None
    else
      let timeStr := part 1 parts in
      let status := part 2 parts in
      let latStr := part 3 parts in
      let latDir := part 4 parts in
      let lonStr := part 5 parts in
      let lonDir := part 6 parts in
      let dateStr := part 9 parts in
      let data_status := if String.eqb status "A" then "Valid" else "Invalid" in
      match parseNmeaTime timeStr dateStr,
            parseNmeaCoordinate latStr latDir,
            parseNmeaCoordinate lonStr lonDir with
      | Some t, Some la, Some lo =>
          Some (RMC {| status := data_status; time := t; lat := la; lon := lo |})
      | _, _, _ => None
      end
  else if String.eqb sentenceType "GGA" then
    if (List.length parts <? 10)%nat then None
    else
      let data_alt := parseFloat (part 9 parts) in
      let timeStr := part 1 parts in
      let data_time :=
        Date_UTC (ofZ 0) (ofZ 0) (ofZ 0)
          (parseInt (substring2 0 2 timeStr))
          (parseInt (substring2 2 4 timeStr))
          (Math_floor (parseFloat (substringFrom 4 timeStr))) in
      if isNaN data_alt then None
      else Some (GGA {| gga_status := "Invalid"; alt := data_alt; gga_time := data_time |})
  else None.

(** ** 3. Merging, filtering and GPX generation *)

(** A [Map] keyed by whole seconds. [Math.floor(t / 1000)] of a time value
    [t] is the floor quotient (the rounding error of the division is below
    the distance of [t / 1000] to the next integer), NaN for an invalid date;
    SameValueZero identifies NaN with itself. *)
Definition key := option Z.

Definition key_eqb (a b : key) : bool :=
  match a, b with
  | Some x, Some y => x =? y
  | None, None => true
  | _, _ => false
  end.

Section Map.
Context {V : Type}.

Definition Map := list (key * V).

Fixpoint Map_get (k : key) (m : Map) : option V :=
  match m with
  | [] => None
  | (k', v) :: m' => if key_eqb k k' then Some v else Map_get k m'
  end.

(** [m.set(k, v)]: an existing key keeps its place, a new one goes last. *)
Fixpoint Map_set (k : key) (v : V) (m : Map) : Map :=
  match m with
  | [] => [(k, v)]
  | (k', v') :: m' =>
      if key_eqb k k' then (k', v) :: m' else (k', v') :: Map_set k v m'
  end.
End Map.

Arguments Map : clear implicits.

Definition timeKeyOf (d : Date) : key := option_map (fun t => t / 1000) d.

Record maps := { rmcPoints : Map rmcData; ggaAlts : Map number }.

Definition noMaps : maps := {| rmcPoints := []; ggaAlts := [] |}.

(** The body of the scanning loop. *)
Definition scanLine (st : maps) (line : string) : maps :=
  match parseNmeaSentence (trim line) with
  | None => st
  | Some d =>
      let timeKey := timeKeyOf (data_time d) in
      match d with
      | RMC r =>
          if String.eqb (status r) "Valid" then
            {| rmcPoints := Map_set timeKey r (rmcPoints st); ggaAlts := ggaAlts st |}
          else st
      | GGA g =>
          {| rmcPoints := rmcPoints st; ggaAlts := Map_set timeKey (alt g) (ggaAlts st) |}
      end
  end.

Definition scanLines (lines : list string) : maps := fold_left scanLine lines noMaps.

(** A combined point; [p_alt = None] is [alt: undefined]. *)
Record point := { p_lat : number; p_lon : number; p_time : Date; p_alt : option number }.

Definition combine (st : maps) : list point :=
  map (fun '(timeKey, rmc) =>
         {| p_lat := lat rmc; p_lon := lon rmc; p_time := time rmc;
            p_alt := Map_get timeKey (ggaAlts st) |})
      (rmcPoints st).

Definition newline : string := String (ascii_of_nat 10) EmptyString.

Definition lines_of (fileContent : string) : list string :=
  split (ascii_of_nat 10) fileContent.

(** [combinedPoints] as it stands before the emptiness check and the sort. *)
Definition combinedPoints (fileContent : string) : list point :=
  combine (scanLines (lines_of fileContent)).

(** [combinedPoints.sort((a, b) => a.time - b.time)]: a stable sort; [b]
    goes before [a] only when the comparator is positive. *)
Definition comesAfter (a b : point) : bool :=
  match Date_minus (p_time a) (p_time b) with
  | Some Gt => true
  | _ => false
  end.

Fixpoint insertSorted (a : point) (l : list point) : list point :=
  match l with
  | [] => [a]
  | b :: l' => if comesAfter a b then b :: insertSorted a l' else a :: l
  end.

(** When a point has an invalid time the comparator is not consistent and
    the order that [sort] produces is implementation-defined; this is the
    order of a stable insertion sort. *)
Definition sortByTime (l : list point) : list point := fold_right insertSorted [] l.

(** What [convertToGpx] does: it returns the GPX text or throws. *)
Inductive exception :=
  | Error_NoValidPoints       (** the [Error] thrown when [combinedPoints] is empty *)
  | Error_NoPointsLeft        (** the [Error] thrown when [filteredPoints] is empty *)
  | RangeError_InvalidTime.   (** thrown by [toISOString] on an invalid Date *)

Inductive outcome :=
  | Return (gpxXml : string)
  | Throw (e : exception).

Definition quote : string := String (ascii_of_nat 34) EmptyString.

Definition gpxHeader : string :=
  "<?xml version=" ++ quote ++ "1.0" ++ quote ++ " encoding=" ++ quote ++ "UTF-8" ++ quote
    ++ " standalone=" ++ quote ++ "no" ++ quote ++ " ?>" ++ newline
  ++ "<gpx xmlns=" ++ quote ++ "http://www.topografix.com/GPX/1/1" ++ quote
    ++ " version=" ++ quote ++ "1.1" ++ quote
    ++ " creator=" ++ quote ++ "NMEA to GPX Converter" ++ quote ++ ">" ++ newline
  ++ "<trk>" ++ newline
  ++ "<trkseg>" ++ newline.

Definition gpxFooter : string :=
  "</trkseg>" ++ newline ++ "</trk>" ++ newline ++ "</gpx>".

(** The text that the serializing loop appends for a point whose time has
    the ISO form [timeIso]. *)
Definition trkpt (p : point) (timeIso : string) : string :=
  "  <trkpt lat=" ++ quote ++ toFixed 6 (p_lat p) ++ quote
    ++ " lon=" ++ quote ++ toFixed 6 (p_lon p) ++ quote ++ ">" ++ newline
  ++ match p_alt p with
     | Some a => "    <ele>" ++ toFixed 2 a ++ "</ele>" ++ newline
     | None => ""
     end
  ++ "    <time>" ++ timeIso ++ "</time>" ++ newline
  ++ "  </trkpt>" ++ newline.

(** The serializing loop, from the text accumulated so far. *)
Fixpoint serialize (gpxXml : string) (ps : list point) : outcome :=
  match ps with
  | [] => Return (gpxXml ++ gpxFooter)
  | p :: ps' =>
      match toISOString (p_time p) with
      | None => Throw RangeError_InvalidTime
      | Some timeIso => serialize (gpxXml ++ trkpt p timeIso) ps'
      end
  end.

Section Converter.

(** [Math.sin], [Math.cos] and [Math.atan2] are implementation-approximated,
    and parsing a date string that is not in the ISO format is
    implementation-defined: the host's functions are parameters.
    [Date_parse s] is the time value of [new Date(s)]. *)
Variables Math_sin Math_cos : number -> number.
Variable Math_atan2 : number -> number -> number.
Variable Date_parse : string -> Date.

Definition getDistance (lat1 lon1 lat2 lon2 : number) : number :=
  let R := ofZ 6371 in
  let toRad angle := mul angle (div Math_PI (ofZ 180)) in
  let dLat := toRad (sub lat2 lat1) in
  let dLon := toRad (sub lon2 lon1) in
  let a :=
    add (mul (Math_sin (div dLat (ofZ 2))) (Math_sin (div dLat (ofZ 2))))
        (mul (mul (mul (Math_cos (toRad lat1)) (Math_cos (toRad lat2)))
                  (Math_sin (div dLon (ofZ 2))))
             (Math_sin (div dLon (ofZ 2)))) in
  let c := mul (ofZ 2) (Math_atan2 (Math_sqrt a) (Math_sqrt (sub (ofZ 1) a))) in
  mul R c.

(** [parseJstToUtc]: [None] is [null]; a Date that is returned is valid. *)
Definition parseJstToUtc (timeStr : string) : option Z :=
  if falsy timeStr then None else Date_parse (timeStr ++ " GMT+0900").

Definition maxSpeedKmhOf (speedFilterType : string) : number :=
  if String.eqb speedFilterType "10" then ofZ 10
  else if String.eqb speedFilterType "100" then ofZ 100
  else Infinity.

(** 1. The time trimming filter: is [currentPoint] skipped? *)
Definition beforeStart (startTimeUtc : option Z) (currentPoint : point) : bool :=
  match startTimeUtc with
  | Some s => Date_lt (p_time currentPoint) (Some s)
  | None => false
  end.

Definition afterEnd (endTimeUtc : option Z) (currentPoint : point) : bool :=
  match endTimeUtc with
  | Some e => Date_gt (p_time currentPoint) (Some e)
  | None => false
  end.

Definition distanceKm (lastPoint currentPoint : point) : number :=
  getDistance (p_lat lastPoint) (p_lon lastPoint) (p_lat currentPoint) (p_lon currentPoint).

Definition timeDiffSec (lastPoint currentPoint : point) : number :=
  div (sub (getTime (p_time currentPoint)) (getTime (p_time lastPoint))) (ofZ 1000).

Definition speedKmh (lastPoint currentPoint : point) : number :=
  mul (div (distanceKm lastPoint currentPoint) (timeDiffSec lastPoint currentPoint))
      (ofZ 3600).

(** 2. The speed filter: is [currentPoint] skipped, given the last point
    that was kept? *)
Definition tooFast (maxSpeedKmh : number) (lastPoint currentPoint : point) : bool :=
  if gt (timeDiffSec lastPoint currentPoint) (ofZ 0)
     && gt (distanceKm lastPoint currentPoint) (ofZ 0)
  then gt (speedKmh lastPoint currentPoint) maxSpeedKmh
  else false.

(** The state of the filtering loop: [lastPoint] and [filteredPoints]. *)
Record filterState := { lastPoint : option point; filteredPoints : list point }.

Definition accept (st : filterState) (currentPoint : point) : filterState :=
  {| lastPoint := Some currentPoint;
     filteredPoints := filteredPoints st ++ [currentPoint] |}.

(** The body of the filtering loop; [continue] leaves the state as it is. *)
Definition filterStep (startTimeUtc endTimeUtc : option Z) (maxSpeedKmh : number)
           (st : filterState) (currentPoint : point) : filterState :=
  if beforeStart startTimeUtc currentPoint then st
  else if afterEnd endTimeUtc currentPoint then st
  else
    match lastPoint st with
    | Some last =>
        if tooFast maxSpeedKmh last currentPoint then st
        else accept st currentPoint
    | None => accept st currentPoint
    end.

Definition filterFrom (startTimeUtc endTimeUtc : option Z) (maxSpeedKmh : number)
           (st : filterState) (ps : list point) : filterState :=
  fold_left (filterStep startTimeUtc endTimeUtc maxSpeedKmh) ps st.

Definition filterPoints (startTimeUtc endTimeUtc : option Z) (maxSpeedKmh : number)
           (ps : list point) : list point :=
  filteredPoints
    (filterFrom startTimeUtc endTimeUtc maxSpeedKmh
       {| lastPoint := None; filteredPoints := [] |} ps).

Definition convertToGpx (fileContent speedFilterType startTimeStr endTimeStr : string)
  : outcome :=
  match combinedPoints fileContent with
  | [] => Throw Error_NoValidPoints
  | combined =>
      let sorted := sortByTime combined in
      let startTimeUtc := parseJstToUtc startTimeStr in
      let endTimeUtc := parseJstToUtc endTimeStr in
      let maxSpeedKmh := maxSpeedKmhOf speedFilterType in
      match filterPoints startTimeUtc endTimeUtc maxSpeedKmh sorted with
      | [] => Throw Error_NoPointsLeft
      | filtered => serialize gpxHeader filtered
      end
  end.

End Converter.

(** ** Sample inputs *)

Definition rmcLine : string :=
  "$GPRMC,120000.00,A,3530.0000,N,13930.0000,E,0.0,0.0,010125,,*00".

Definition ggaLine : string :=
  "$GPGGA,120000.00,3530.0000,N,13930.0000,E,1,08,1.0,100.0,M,0.0,M,,*00".

(** The two-line file of the end-to-end example. *)
Definition sampleFile : string := rmcLine ++ newline ++ ggaLine.

(** An RMC sentence whose status is not [A]. *)
Definition voidLine : string :=
  "$GPRMC,120000.00,V,3530.0000,N,13930.0000,E,0.0,0.0,010125,,*00".

(** An RMC sentence whose time field is not numeric. *)
Definition badTimeLine : string :=
  "$GPRMC,xx0000.00,A,3530.0000,N,13930.0000,E,0.0,0.0,010125,,*00".

(** A GGA sentence whose time field has an overlong seconds part: 3944808000
    seconds after 1899-12-31T00:00:00Z is 2025-01-01T12:00:00Z. *)
Definition longSecondsGga : string :=
  "$GPGGA,00003944808000,3530.0000,N,13930.0000,E,1,08,1.0,100.0,M,0.0,M,,*00".

Definition longSecondsFile : string := rmcLine ++ newline ++ longSecondsGga.

(** An RMC sentence dated 010125 whose time field has a negative seconds
    part that leads back to 1899-12-31T12:00:00Z. *)
Definition negativeSecondsRmc : string :=
  "$GPRMC,0000-3944721600,A,3530.0000,N,13930.0000,E,0.0,0.0,010125,,*00".

Definition negativeSecondsFile : string := negativeSecondsRmc ++ newline ++ ggaLine.

(** [s.includes(needle)]. *)
Fixpoint contains (needle s : string) : bool :=
  startsWith needle s
  || match s with
     | String _ s' => contains needle s'
     | EmptyString => false
     end.

(** The GPX text of a single track point without elevation. *)
Definition gpxOfOnePoint (latText lonText timeIso : string) : string :=
  gpxHeader
  ++ "  <trkpt lat=" ++ quote ++ latText ++ quote ++ " lon=" ++ quote ++ lonText ++ quote
  ++ ">" ++ newline
  ++ "    <time>" ++ timeIso ++ "</time>" ++ newline
  ++ "  </trkpt>" ++ newline
  ++ gpxFooter.


(** ** Notions used in the statements *)

(** Does the character occur in the string? *)
Fixpoint occurs (c : ascii) (s : string) : bool :=
  match s with
  | String d s' => Ascii.eqb d c || occurs c s'
  | EmptyString => false
  end.

Definition LF : ascii := ascii_of_nat 10.

(** The number of entries of a map under a key. *)
Definition countKey {V : Type} (k : key) (m : Map V) : nat :=
  List.length (filter (fun e => key_eqb k (fst e)) m).

(** Every key has at most one entry. *)
Definition uniqueKeys {V : Type} (m : Map V) : Prop :=
  forall k, (countKey k m <= 1)%nat.

(** The fix that a line stores in [rmcPoints], if it stores one. *)
Definition fixOf (line : string) : option rmcData :=
  match parseNmeaSentence (trim line) with
  | Some (RMC r) => if String.eqb (status r) "Valid" then Some r else None
  | _ => None
  end.

(** The altitude record that a line stores in [ggaAlts], if it stores one. *)
Definition altOf (line : string) : option ggaData :=
  match parseNmeaSentence (trim line) with
  | Some (GGA g) => Some g
  | _ => None
  end.

Definition fixKeyOf (line : string) : option key :=
  option_map (fun r => timeKeyOf (time r)) (fixOf line).

Definition altKeyOf (line : string) : option key :=
  option_map (fun g => timeKeyOf (gga_time g)) (altOf line).

(** The combined point of a fix that found no altitude. *)
Definition bareFix (r : rmcData) : point :=
  {| p_lat := lat r; p_lon := lon r; p_time := time r; p_alt := None |}.

(** A point passes the time trimming filter. *)
Definition inWindow (startTimeUtc endTimeUtc : option Z) (p : point) : bool :=
  negb (beforeStart startTimeUtc p) && negb (afterEnd endTimeUtc p).

(** Stand-ins for the host's trigonometric functions, to run the filter on
    examples: the small-angle approximations sin x = x, cos x = 1 and
    atan2(y, x) = y / x. *)
Definition linear_sin (x : number) : number := x.
Definition unit_cos (x : number) : number := ofZ 1.
Definition ratio_atan2 (y x : number) : number := div y x.

(** Three fixes: a start, a jump of one degree of latitude within a second,
    and a point close to the start a minute after it. *)
Definition fixAt (latText : string) (t : Z) : point :=
  {| p_lat := parseFloat latText; p_lon := parseFloat "139.5";
     p_time := Some t; p_alt := None |}.

Definition P0_sample : point := fixAt "35.5" 1735732800000.
Definition P1_sample : point := fixAt "36.5" 1735732801000.
Definition P2_sample : point := fixAt "35.5001" 1735732860000.

(** The record of [rmcLine]. *)
Definition sampleFix : rmcData :=
  {| status := "Valid"; time := Some 1735732800000;
     lat := S754_finite false 4996180836614144 (-47);
     lon := S754_finite false 4908219906392064 (-45) |}.

(** The fix that a line stores, if any, is a valid instant of the years
    2000 to 2099. *)
Definition datedIn2000s (line : string) : bool :=
  match fixOf line with
  | Some r =>
      match time r with
      | Some t => (946684800000 <=? t) && (t <? 4102444800000)
      | None => false
      end
  | None => true
  end.

(** The seconds argument of the placeholder date of a GGA sentence. *)
Definition ggaSecondsOf (line : string) : option number :=
  let parts := split "," (trim line) in
  if String.eqb (sentenceTypeOf parts) "GGA"
  then Some (Math_floor (parseFloat (substringFrom 4 (part 1 parts))))
  else None.

(** The seconds part of the time field of a GGA sentence, if it is a finite
    number, is below the bound. *)
Definition ggaSecondsBelow (bound : Z) (line : string) : bool :=
  match ggaSecondsOf line with
  | Some s =>
      match truncate s with
      | Some z => z <? bound
      | None => true
      end
  | None => true
  end.

(** The first second of the year 2000, in seconds since the epoch. *)
Definition year2000 : Z := 946684800.

(** A key that no fix of the years from 2000 on has: NaN or a second before
    the year 2000. *)
Definition before2000 (k : key) : Prop :=
  match k with
  | Some z => z < year2000
  | None => True
  end.

Definition from2000 (k : key) : Prop :=
  match k with
  | Some z => year2000 <= z
  | None => False
  end.

(** ** Notions used in the proofs about the GPX text *)

(** No character of the string opens a tag. *)
Fixpoint plain (s : string) : bool :=
  match s with
  | String c s' => negb (Ascii.eqb c "<") && plain s'
  | EmptyString => true
  end.

(** Every "<" of the string is followed by a character other than "e". *)
Fixpoint noEleStart (s : string) : bool :=
  match s with
  | String c s' =>
      (if Ascii.eqb c "<" then
         match s' with
         | String d _ => negb (Ascii.eqb d "e")
         | EmptyString => false
         end
       else true)
      && noEleStart s'
  | EmptyString => true
  end.

Fixpoint allDigits (s : string) : bool :=
  match s with
  | String c s' => isDigit c && allDigits s'
  | EmptyString => true
  end.

(** ** The binary64 computations behind the integer model of time values

    [Date.UTC] and the key computation as ECMAScript specifies them, on
    Numbers; they are compared with the integer model on samples. *)

Definition timeKeyIEEE (d : Date) : number :=
  Math_floor (div (getTime d) (ofZ 1000)).

Definition MakeTimeIEEE (hour min sec ms : Z) : number :=
  add (add (add (mul (ofZ hour) (ofZ 3600000)) (mul (ofZ min) (ofZ 60000)))
           (mul (ofZ sec) (ofZ 1000)))
      (ofZ ms).

Definition MakeDateIEEE (day : Z) (time : number) : number :=
  add (mul (ofZ day) (ofZ msPerDay)) time.

Definition TimeClipIEEE (tv : number) : Date :=
  match truncate tv with
  | Some t => TimeClip t
  | None => None
  end.

Definition Date_UTC_IEEE (year month date hours minutes seconds : number) : Date :=
  match truncate year, truncate month, truncate date,
        truncate hours, truncate minutes, truncate seconds with
  | Some y, Some m, Some dt, Some h, Some mi, Some s =>
      TimeClipIEEE (MakeDateIEEE (MakeDay (MakeFullYear y) m dt) (MakeTimeIEEE h mi s 0))
  | _, _, _, _, _, _ => None
  end.

Definition Date_eqb (a b : Date) : bool :=
  match a, b with
  | Some x, Some y => x =? y
  | None, None => true
  | _, _ => false
  end.

(** Seconds arguments around the ends of the range of time values, and
    years, months, days, hours and minutes as two characters give them. *)
Definition sampleSeconds : list string :=
  ["0"; "59"; "60.9"; "-1"; "-0.5"; "3944808000"; "-3944721600";
   "8640000000000"; "8640000000001"; "-8640000000000"; "-8640000000001";
   "8638264267200"; "8638264267201"; "8642209032000"; "8642209032001";
   "9007199254740"; "9007199254741"; "9007199254740992"; "1e300"; "-1e300";
   "NaN"; "Infinity"].

Definition sampleFields : list (Z * Z * Z * Z * Z) :=
  [(2025, 0, 1, 12, 0); (0, 0, 0, 12, 0); (1991, -10, -9, -9, -9);
   (2099, 98, 99, 99, 99); (2000, 1, 29, 23, 59)].

Definition agreesOnSample (f : Z * Z * Z * Z * Z) (sec : string) : bool :=
  let '(y, m, d, h, mi) := f in
  let s := Math_floor (parseFloat sec) in
  let exact := Date_UTC (ofZ y) (ofZ m) (ofZ d) (ofZ h) (ofZ mi) s in
  Date_eqb (Date_UTC_IEEE (ofZ y) (ofZ m) (ofZ d) (ofZ h) (ofZ mi) s) exact
  && match SFcompare (timeKeyIEEE exact) (getTime (timeKeyOf exact)), exact with
     | Some Eq, Some _ => true
     | None, None => true
     | _, _ => false
     end.

From Stdlib Require Import Sorting.Sorted Sorting.Permutation.

(** ** Further notions: the pipeline as a whole *)

(** The line stores no fix in [rmcPoints]. *)
Definition storesNoFix (line : string) : bool :=
  match fixOf line with
  | None => true
  | Some _ => false
  end.

Definition hasValidTime (p : point) : bool :=
  match p_time p with
  | Some _ => true
  | None => false
  end.

(** The text of a point with a valid time in the GPX document. *)
Definition trkptOf (p : point) : string :=
  match p_time p with
  | Some t => trkpt p (isoString t)
  | None => ""
  end.

Definition concatStrings (l : list string) : string := fold_right append "" l.

(** [l1] is [l2] with some elements left out. *)
Inductive subseq {A : Type} : list A -> list A -> Prop :=
  | subseq_nil : subseq [] []
  | subseq_skip (x : A) (l1 l2 : list A) : subseq l1 l2 -> subseq l1 (x :: l2)
  | subseq_keep (x : A) (l1 l2 : list A) : subseq l1 l2 -> subseq (x :: l1) (x :: l2).

(** [a] is not later than [b]; both have valid times. *)
Definition timeLe (a b : point) : Prop :=
  match p_time a, p_time b with
  | Some x, Some y => x <= y
  | _, _ => False
  end.

(** The comparator of the sort does not ask for [b] before [a]. *)
Definition inOrder (a b : point) : Prop := comesAfter a b = false.

(** The whole-second key of a combined point. *)
Definition pointKey (p : point) : key := timeKeyOf (p_time p).

(** The combined point of a fix and an altitude. *)
Definition fixWithAlt (r : rmcData) (a : number) : point :=
  {| p_lat := lat r; p_lon := lon r; p_time := time r; p_alt := Some a |}.

(** The record of [longSecondsGga]. *)
Definition sampleAlt : ggaData :=
  {| gga_status := "Invalid"; alt := ofZ 100; gga_time := Some 1735732800000 |}.




Definition hasAltitude (p : point) : bool :=
  match p_alt p with
  | Some _ => true
  | None => false
  end.

(** A Number that is neither NaN nor an infinity. *)
Definition finite (x : number) : bool :=
  match x with
  | S754_zero _ | S754_finite _ _ _ => true
  | _ => false
  end.

(** The cosine that [getDistance] takes of a latitude, through the host's
    function. *)
Definition cosOfLatitude (Math_cos : number -> number) (latitude : number) : number :=
  Math_cos (mul latitude (div Math_PI (ofZ 180))).

(** The fix of the end-to-end example, with and without an altitude. *)
Definition plainPoint : point := bareFix sampleFix.
Definition highPoint : point := fixWithAlt sampleFix (ofZ 100).
(** ** The integer model of time values, on samples *)

(** On the samples, the integer computation of [Date.UTC] and of the
    whole-second key gives what the binary64 computation gives. *)
Lemma integer_time_model_on_samples :
  forallb (fun f => forallb (agreesOnSample f) sampleSeconds) sampleFields = true.
Proof. vm_compute. reflexivity. Qed.

(** ** Properties of the decoders *)

(** C4 (as the code behaves). [parseNmeaCoordinate] does not return [null]
    when the degrees and minutes cannot be parsed as numbers: on the
    coordinate string "abcd.ef" with hemisphere "N" it returns the Number
    NaN. Only an empty argument gives [null]. *)
Theorem parseNmeaCoordinate_unparsable_is_NaN :
  parseNmeaCoordinate "abcd.ef" "N" = Some NaN
  /\ parseNmeaCoordinate "" "N" = None
  /\ parseNmeaCoordinate "3530.0000" "" = None.
Proof. repeat split; vm_compute; reflexivity. Qed.

(** Where both substrings are numeric the result is degrees + minutes / 60,
    negated for the southern and western hemispheres. *)
Lemma parseNmeaCoordinate_examples :
  parseNmeaCoordinate "3530.0000" "N" = Some (S754_finite false 4996180836614144 (-47))
  /\ toFixed 6 (S754_finite false 4996180836614144 (-47)) = "35.500000"
  /\ parseNmeaCoordinate "13930.0000" "E" = Some (S754_finite false 4908219906392064 (-45))
  /\ toFixed 6 (S754_finite false 4908219906392064 (-45)) = "139.500000"
  /\ parseNmeaCoordinate "3545.1234" "S"
     = option_map neg (parseNmeaCoordinate "3545.1234" "N")
  /\ parseNmeaCoordinate "13930.0000" "W"
     = option_map neg (parseNmeaCoordinate "13930.0000" "E").
Proof. repeat split; vm_compute; reflexivity. Qed.

(** [parseNmeaCoordinate] returns [null] exactly on an empty argument. *)
Lemma parseNmeaCoordinate_null (coordStr direction : string) :
  parseNmeaCoordinate coordStr direction = None
  <-> coordStr = "" \/ direction = "".
Proof.
  unfold parseNmeaCoordinate.
  destruct coordStr as [|c cs], direction as [|d ds]; simpl; split; intros H;
    try (left; reflexivity); try (right; reflexivity); try reflexivity.
  - destruct (_ || _) in H; discriminate.
  - destruct H; discriminate.
Qed.

(** [parseNmeaTime] never returns [null]. *)
Lemma parseNmeaTime_not_null (timeStr dateStr : string) :
  parseNmeaTime timeStr dateStr <> None.
Proof. unfold parseNmeaTime; discriminate. Qed.

(** C5 (as the code behaves). [parseNmeaTime] does not return [null] on a
    non-numeric substring or on an out-of-range field: for the time
    "ab3456.78" it returns an invalid Date, and the out-of-range time
    "256161" with the date "321325" (hour 25, minute 61, second 61, day 32,
    month 13) rolls over to 2026-02-02T02:02:01Z. *)
Theorem parseNmeaTime_bad_fields_not_null :
  parseNmeaTime "ab3456.78" "010125" = Some None
  /\ parseNmeaTime "256161" "321325" = Some (Some 1769997721000)
  /\ toISOString (Some 1769997721000) = Some "2026-02-02T02:02:01.000Z".
Proof. repeat split; vm_compute; reflexivity. Qed.

(** The time "123456.78" on the date "010125" is 2025-01-01T12:34:56Z: the
    fraction of the second is dropped. *)
Lemma parseNmeaTime_example :
  parseNmeaTime "123456.78" "010125" = Some (Some 1735734896000)
  /\ toISOString (Some 1735734896000) = Some "2025-01-01T12:34:56.000Z".
Proof. split; vm_compute; reflexivity. Qed.

(** ** Properties of the sentence parser *)

Lemma substring_all (s : string) : substring 0 (String.length s) s = s.
Proof. induction s as [|c s IH]; simpl; [reflexivity | now rewrite IH]. Qed.

(** The sentence type is everything from the 4th character of the tag on;
    when it is a three-letter word, it is the 4th to 6th characters. *)
Lemma sentenceType_chars (tag w : string) :
  String.length w = 3%nat -> substringFrom 3 tag = w -> substring2 3 6 tag = w.
Proof.
  unfold substringFrom, substring2. intros Hw H.
  destruct tag as [|c1 [|c2 [|c3 r]]]; simpl in H;
    try (subst w; discriminate Hw).
  rewrite Nat.sub_0_r, substring_all in H. subst r. simpl.
  destruct w as [|a [|b [|c [|d w]]]]; try discriminate Hw. reflexivity.
Qed.

Lemma parseNmeaSentence_some (line : string) (d : data) :
  parseNmeaSentence line = Some d ->
  (sentenceTypeOf (split "," line) = "RMC" \/ sentenceTypeOf (split "," line) = "GGA")
  /\ (10 <= List.length (split "," line))%nat.
Proof.
  unfold parseNmeaSentence. intros H.
  destruct (String.eqb_spec (sentenceTypeOf (split "," line)) "RMC") as [E|_].
  - destruct (Nat.ltb_spec (List.length (split "," line)) 10); [discriminate|].
    split; [now left | assumption].
  - destruct (String.eqb_spec (sentenceTypeOf (split "," line)) "GGA") as [E|_];
      [|discriminate].
    destruct (Nat.ltb_spec (List.length (split "," line)) 10); [discriminate|].
    split; [now right | assumption].
Qed.

(** C10. A line yields a record only if the 4th to 6th characters of its
    first comma-separated field are RMC or GGA and it has at least 10
    fields; with other characters there, or with fewer than 10 fields, it
    yields no record. *)
Theorem parseNmeaSentence_type_and_arity (line : string) :
  let parts := split "," line in
  let chars4to6 := substring2 3 6 (part 0 parts) in
  (forall d, parseNmeaSentence line = Some d ->
     (chars4to6 = "RMC" \/ chars4to6 = "GGA") /\ (10 <= List.length parts)%nat)
  /\ ((chars4to6 <> "RMC" /\ chars4to6 <> "GGA") \/ (List.length parts < 10)%nat ->
      parseNmeaSentence line = None).
Proof.
  intros parts chars4to6.
  assert (A : forall d, parseNmeaSentence line = Some d ->
     (chars4to6 = "RMC" \/ chars4to6 = "GGA") /\ (10 <= List.length parts)%nat).
  { intros d H. apply parseNmeaSentence_some in H. destruct H as [[E|E] L].
    - split; [left | exact L]. now apply sentenceType_chars.
    - split; [right | exact L]. now apply sentenceType_chars. }
  split; [exact A|].
  intros H. destruct (parseNmeaSentence line) as [d|] eqn:E; [|reflexivity].
  destruct (A d eq_refl) as [T L]. destruct H as [[N1 N2]|H]; [|lia].
  destruct T; contradiction.
Qed.

(** The kind of the record follows the sentence type. *)
Lemma parseNmeaSentence_kind (line : string) (d : data) :
  parseNmeaSentence line = Some d ->
  match d with
  | RMC _ => sentenceTypeOf (split "," line) = "RMC"
  | GGA _ => sentenceTypeOf (split "," line) = "GGA"
  end.
Proof.
  unfold parseNmeaSentence. intros H.
  destruct (String.eqb_spec (sentenceTypeOf (split "," line)) "RMC") as [E|N].
  - destruct (_ <? _)%nat; [discriminate|].
    destruct (parseNmeaTime _ _); [|discriminate].
    destruct (parseNmeaCoordinate _ _); [|discriminate].
    destruct (parseNmeaCoordinate _ _); [|discriminate].
    injection H as <-. exact E.
  - destruct (String.eqb_spec (sentenceTypeOf (split "," line)) "GGA") as [E|_];
      [|discriminate].
    destruct (_ <? _)%nat; [discriminate|].
    destruct (isNaN _); [discriminate|]. injection H as <-. exact E.
Qed.

(** The status of an RMC record is "Valid" exactly when the status field
    of the sentence is "A". *)
Lemma parseNmeaSentence_status (line : string) (r : rmcData) :
  parseNmeaSentence line = Some (RMC r) ->
  status r = if String.eqb (part 2 (split "," line)) "A" then "Valid" else "Invalid".
Proof.
  unfold parseNmeaSentence. intros H.
  destruct (String.eqb (sentenceTypeOf (split "," line)) "RMC").
  - destruct (_ <? _)%nat; [discriminate|].
    destruct (parseNmeaTime _ _); [|discriminate].
    destruct (parseNmeaCoordinate _ _); [|discriminate].
    destruct (parseNmeaCoordinate _ _); [|discriminate].
    injection H as <-. reflexivity.
  - destruct (String.eqb (sentenceTypeOf (split "," line)) "GGA"); [|discriminate].
    destruct (_ <? _)%nat; [discriminate|]. destruct (isNaN _); discriminate.
Qed.

(** ** Properties of the merge *)

(** An RMC sentence whose status is not "A" leaves both maps as they are. *)
Lemma scanLine_void (st : maps) (line : string) :
  sentenceTypeOf (split "," (trim line)) = "RMC" ->
  part 2 (split "," (trim line)) <> "A" ->
  scanLine st line = st.
Proof.
  intros T S. unfold scanLine.
  destruct (parseNmeaSentence (trim line)) as [[r|g]|] eqn:E; try reflexivity.
  - rewrite (parseNmeaSentence_status _ _ E).
    destruct (String.eqb_spec (part 2 (split "," (trim line))) "A"); [contradiction|].
    reflexivity.
  - apply parseNmeaSentence_kind in E. rewrite T in E. discriminate.
Qed.

(** C9. A line that is an RMC sentence with a status other than "A"
    contributes no combined point: the merged sequence of a file is the same
    with the line and without it, whatever its coordinates and time are. *)
Theorem void_rmc_contributes_nothing (line : string) (before after : list string) :
  sentenceTypeOf (split "," (trim line)) = "RMC" ->
  part 2 (split "," (trim line)) <> "A" ->
  combine (scanLines (before ++ line :: after)) = combine (scanLines (before ++ after))
  /\ combine (scanLines [line]) = [].
Proof.
  intros T S. unfold scanLines. split.
  - rewrite !fold_left_app. simpl. now rewrite (scanLine_void _ _ T S).
  - simpl. now rewrite (scanLine_void _ _ T S).
Qed.

(** The void sentence between the two sample sentences changes nothing. *)
Lemma void_rmc_contributes_nothing_witness :
  (parseNmeaSentence (trim voidLine) <> None)
  /\ combine (scanLines ([rmcLine] ++ voidLine :: [ggaLine]))
     = combine (scanLines ([rmcLine] ++ [ggaLine]))
  /\ combine (scanLines [voidLine]) = [].
Proof.
  split; [vm_compute; discriminate|].
  apply (void_rmc_contributes_nothing voidLine [rmcLine] [ggaLine]).
  - vm_compute; reflexivity.
  - vm_compute; discriminate.
Defined.

(** ** End-to-end runs *)

Section Runs.
Variables Math_sin Math_cos : number -> number.
Variable Math_atan2 : number -> number -> number.
Variable Date_parse : string -> Date.

Let convert := convertToGpx Math_sin Math_cos Math_atan2 Date_parse.

(** C1 (as the code behaves). For the two-line file of the RMC sentence and
    a GGA sentence at the same second with the altitude field 100.0, with
    the speed filter "none" and both time bounds empty, [convertToGpx]
    returns a GPX document with the one track point at lat="35.500000"
    lon="139.500000" and time 2025-01-01T12:00:00.000Z, but without any
    <ele> element: the altitude is stored under the key of
    1899-12-31T12:00:00Z and the fix under that of 2025-01-01T12:00:00Z. *)
Theorem sample_file_loses_elevation :
  convert sampleFile "none" "" ""
  = Return (gpxOfOnePoint "35.500000" "139.500000" "2025-01-01T12:00:00.000Z")
  /\ contains "<ele>"
       (gpxOfOnePoint "35.500000" "139.500000" "2025-01-01T12:00:00.000Z") = false
  /\ map fst (rmcPoints (scanLines (lines_of sampleFile))) = [Some 1735732800]
  /\ ggaAlts (scanLines (lines_of sampleFile)) = [(Some (-2209032000), ofZ 100)]
  /\ toISOString (Some (-2209032000 * 1000)) = Some "1899-12-31T12:00:00.000Z".
Proof. repeat split; vm_compute; reflexivity. Qed.

(** A single point with an invalid time passes both filters, whatever the
    configuration is. *)
Lemma filterPoints_invalid_time (startTimeUtc endTimeUtc : option Z)
      (maxSpeedKmh : number) (p : point) :
  p_time p = None ->
  filterPoints Math_sin Math_cos Math_atan2 startTimeUtc endTimeUtc maxSpeedKmh [p] = [p].
Proof.
  intros H. unfold filterPoints, filterFrom, filterStep, beforeStart, afterEnd,
    Date_gt, Date_lt. simpl. rewrite H.
  destruct startTimeUtc, endTimeUtc; reflexivity.
Qed.

(** C3 (as the code behaves). An exception other than the two "no points"
    errors escapes [convertToGpx]: for the one-line file of an RMC sentence
    whose time field is "xx0000.00", under every configuration, the sentence
    is not skipped; it becomes a point with an invalid Date, and
    [toISOString] throws a RangeError while the GPX text is built. *)
Theorem bad_time_escapes_as_RangeError (speedFilterType startTimeStr endTimeStr : string) :
  convert badTimeLine speedFilterType startTimeStr endTimeStr
  = Throw RangeError_InvalidTime.
Proof.
  unfold convert, convertToGpx.
  set (p := {| p_lat := S754_finite false 4996180836614144 (-47);
               p_lon := S754_finite false 4908219906392064 (-45);
               p_time := None; p_alt := None |}).
  assert (E : combinedPoints badTimeLine = [p]) by (vm_compute; reflexivity).
  rewrite E. change (sortByTime [p]) with [p].
  rewrite filterPoints_invalid_time by reflexivity. reflexivity.
Qed.

End Runs.

(** ** Maps in insertion order *)

Lemma key_eqb_eq (a b : key) : key_eqb a b = true <-> a = b.
Proof.
  destruct a as [x|], b as [y|]; simpl; split; intros H;
    try reflexivity; try discriminate.
  - apply Z.eqb_eq in H. now subst.
  - injection H as ->. apply Z.eqb_refl.
Qed.

Lemma key_eqb_refl (a : key) : key_eqb a a = true.
Proof. now apply key_eqb_eq. Qed.

Lemma key_eqb_neq (a b : key) : key_eqb a b = false <-> a <> b.
Proof.
  split.
  - intros H E. apply key_eqb_eq in E. congruence.
  - intros N. destruct (key_eqb a b) eqn:E; [|reflexivity].
    apply key_eqb_eq in E. contradiction.
Qed.

Section MapFacts.
Context {V : Type}.
Implicit Types (m : Map V) (k : key) (v : V).

Lemma Map_get_set_same k v m : Map_get k (Map_set k v m) = Some v.
Proof.
  induction m as [|[k' v'] m IH]; simpl.
  - now rewrite key_eqb_refl.
  - destruct (key_eqb k k') eqn:E; simpl; rewrite E; [reflexivity | exact IH].
Qed.

Lemma Map_get_set_other k k' v m :
  k <> k' -> Map_get k' (Map_set k v m) = Map_get k' m.
Proof.
  intros N. induction m as [|[k0 v0] m IH]; simpl.
  - destruct (key_eqb k' k) eqn:E; [|reflexivity].
    apply key_eqb_eq in E. congruence.
  - destruct (key_eqb k k0) eqn:E; simpl.
    + apply key_eqb_eq in E. subst k0.
      destruct (key_eqb k' k) eqn:E'; [|reflexivity].
      apply key_eqb_eq in E'. congruence.
    + now rewrite IH.
Qed.

Lemma countKey_set_same k v m : countKey k m = 1%nat \/ countKey k m = 0%nat ->
  countKey k (Map_set k v m) = 1%nat.
Proof.
  unfold countKey. induction m as [|[k' v'] m IH]; simpl.
  - now rewrite key_eqb_refl.
  - destruct (key_eqb k k') eqn:E; simpl; rewrite E; simpl.
    + intros [H|H]; [exact H | discriminate H].
    + exact IH.
Qed.

Lemma countKey_set_other k k' v m :
  k <> k' -> countKey k' (Map_set k v m) = countKey k' m.
Proof.
  intros N. unfold countKey. induction m as [|[k0 v0] m IH]; simpl.
  - destruct (key_eqb k' k) eqn:E; [|reflexivity].
    apply key_eqb_eq in E. congruence.
  - destruct (key_eqb k k0) eqn:E; simpl.
    + destruct (key_eqb k' k0); reflexivity.
    + destruct (key_eqb k' k0); simpl; now rewrite IH.
Qed.

Lemma uniqueKeys_set k v m : uniqueKeys m -> uniqueKeys (Map_set k v m).
Proof.
  intros U k'. destruct (key_eqb k k') eqn:E.
  - apply key_eqb_eq in E. subst k'. rewrite countKey_set_same; [lia|].
    specialize (U k). lia.
  - apply key_eqb_neq in E. rewrite countKey_set_other by exact E. apply U.
Qed.

End MapFacts.

(** ** Splitting the file into lines *)

Lemma split_no_separator (c : ascii) (s : string) :
  occurs c s = false -> split c s = [s].
Proof.
  induction s as [|d s IH]; simpl; [reflexivity|].
  intros H. apply orb_false_iff in H. destruct H as [H1 H2].
  rewrite H1, (IH H2). reflexivity.
Qed.

Lemma split_at_separator (c : ascii) (a b : string) :
  occurs c a = false -> split c (a ++ String c b) = a :: split c b.
Proof.
  induction a as [|d a IH]; simpl.
  - intros _. now rewrite Ascii.eqb_refl.
  - intros H. apply orb_false_iff in H. destruct H as [H1 H2].
    rewrite H1, (IH H2). reflexivity.
Qed.

Lemma lines_of_two (a b : string) :
  occurs LF a = false -> occurs LF b = false ->
  lines_of (a ++ newline ++ b) = [a; b].
Proof.
  intros Ha Hb. unfold lines_of, newline. simpl.
  change (ascii_of_nat 10) with LF.
  rewrite (split_at_separator LF a b Ha), (split_no_separator LF b Hb). reflexivity.
Qed.

(** ** The scanning loop *)

Lemma scanLine_cases (st : maps) (line : string) :
  scanLine st line =
  match fixOf line, altOf line with
  | Some r, _ =>
      {| rmcPoints := Map_set (timeKeyOf (time r)) r (rmcPoints st);
         ggaAlts := ggaAlts st |}
  | None, Some g =>
      {| rmcPoints := rmcPoints st;
         ggaAlts := Map_set (timeKeyOf (gga_time g)) (alt g) (ggaAlts st) |}
  | None, None => st
  end.
Proof.
  unfold scanLine, fixOf, altOf.
  destruct (parseNmeaSentence (trim line)) as [[r|g]|]; simpl; try reflexivity.
  destruct (String.eqb (status r) "Valid"); reflexivity.
Qed.

Lemma fixOf_altOf (line : string) (r : rmcData) : fixOf line = Some r -> altOf line = None.
Proof.
  unfold fixOf, altOf.
  destruct (parseNmeaSentence (trim line)) as [[r'|g]|]; [reflexivity | discriminate | reflexivity].
Qed.

Lemma scanLines_snoc (lines : list string) (line : string) :
  scanLines (lines ++ [line]) = scanLine (scanLines lines) line.
Proof. unfold scanLines. now rewrite fold_left_app. Qed.

Lemma scanLines_split (earlier later : list string) :
  scanLines (earlier ++ later) = fold_left scanLine later (scanLines earlier).
Proof. unfold scanLines. now rewrite fold_left_app. Qed.

(** The keys of both maps stay unique. *)
Lemma scan_uniqueKeys (lines : list string) (st : maps) :
  uniqueKeys (rmcPoints st) -> uniqueKeys (ggaAlts st) ->
  uniqueKeys (rmcPoints (fold_left scanLine lines st))
  /\ uniqueKeys (ggaAlts (fold_left scanLine lines st)).
Proof.
  revert st. induction lines as [|l lines IH]; intros st U1 U2; simpl; [now split|].
  apply IH; rewrite scanLine_cases;
    destruct (fixOf l), (altOf l); simpl; auto using uniqueKeys_set.
Qed.

(** An entry stays as it is while no later line stores under its key. *)
Lemma scan_keeps_fix (later : list string) (st : maps) (k : key) (r : rmcData) :
  Map_get k (rmcPoints st) = Some r ->
  Forall (fun l => fixKeyOf l <> Some k) later ->
  Map_get k (rmcPoints (fold_left scanLine later st)) = Some r.
Proof.
  revert st. induction later as [|l later IH]; intros st G F; simpl; [exact G|].
  inversion F as [|? ? N F']; subst. apply IH; [|exact F'].
  rewrite scanLine_cases. unfold fixKeyOf in N.
  destruct (fixOf l) as [r'|]; simpl in *.
  - rewrite Map_get_set_other; [exact G | congruence].
  - destruct (altOf l); exact G.
Qed.

Lemma scan_keeps_alt (later : list string) (st : maps) (k : key) (a : number) :
  Map_get k (ggaAlts st) = Some a ->
  Forall (fun l => altKeyOf l <> Some k) later ->
  Map_get k (ggaAlts (fold_left scanLine later st)) = Some a.
Proof.
  revert st. induction later as [|l later IH]; intros st G F; simpl; [exact G|].
  inversion F as [|? ? N F']; subst. apply IH; [|exact F'].
  rewrite scanLine_cases. unfold altKeyOf in N.
  destruct (fixOf l) as [r'|]; simpl; [exact G|].
  destruct (altOf l) as [g|]; simpl in *; [|exact G].
  rewrite Map_get_set_other; [exact G | congruence].
Qed.

(** A key that has an entry keeps exactly one. *)
Lemma scan_keeps_count (later : list string) (st : maps) (k : key) :
  (countKey k (rmcPoints st) = 1%nat ->
   countKey k (rmcPoints (fold_left scanLine later st)) = 1%nat)
  /\ (countKey k (ggaAlts st) = 1%nat ->
      countKey k (ggaAlts (fold_left scanLine later st)) = 1%nat).
Proof.
  revert st. induction later as [|l later IH]; intros st; simpl; [now split|].
  destruct (IH (scanLine st l)) as [I1 I2].
  split; intros C; [apply I1 | apply I2]; rewrite scanLine_cases.
  - destruct (fixOf l) as [r'|]; simpl; [|destruct (altOf l); exact C].
    destruct (key_eqb (timeKeyOf (time r')) k) eqn:E.
    + apply key_eqb_eq in E. subst k. apply countKey_set_same. now left.
    + apply key_eqb_neq in E. now rewrite countKey_set_other.
  - destruct (fixOf l) as [r'|]; simpl; [exact C|].
    destruct (altOf l) as [g|]; simpl; [|exact C].
    destruct (key_eqb (timeKeyOf (gga_time g)) k) eqn:E.
    + apply key_eqb_eq in E. subst k. apply countKey_set_same. now left.
    + apply key_eqb_neq in E. now rewrite countKey_set_other.
Qed.

(** Storing the same entry twice is storing it once. *)
Lemma Map_set_idem {V : Type} (k : key) (v : V) (m : Map V) :
  Map_set k v (Map_set k v m) = Map_set k v m.
Proof.
  induction m as [|[k' v'] m IH]; simpl.
  - now rewrite key_eqb_refl.
  - destruct (key_eqb k k') eqn:E; simpl; rewrite E; [reflexivity | now rewrite IH].
Qed.

(** Scanning a line a second time, right after the first, changes nothing. *)
Lemma scanLine_idem (st : maps) (line : string) :
  scanLine (scanLine st line) line = scanLine st line.
Proof.
  rewrite !scanLine_cases.
  destruct (fixOf line) as [r|]; simpl; [now rewrite Map_set_idem|].
  destruct (altOf line) as [g|]; simpl; [now rewrite Map_set_idem | reflexivity].
Qed.

Lemma split_not_nil (c : ascii) (s : string) : split c s <> [].
Proof.
  destruct s as [|d s]; simpl; [discriminate|].
  destruct (Ascii.eqb d c); [discriminate|].
  destruct (split c s); discriminate.
Qed.

Lemma split_app (c : ascii) (a b : string) :
  split c (a ++ String c b) = (split c a ++ split c b)%list.
Proof.
  induction a as [|d a IH]; simpl.
  - now rewrite Ascii.eqb_refl.
  - destruct (Ascii.eqb d c); [now rewrite IH|].
    rewrite IH. pose proof (split_not_nil c a) as N.
    destruct (split c a) as [|h t]; [contradiction | reflexivity].
Qed.

Lemma lines_of_app (a b : string) :
  lines_of (a ++ newline ++ b) = (lines_of a ++ lines_of b)%list.
Proof. unfold lines_of, newline. simpl. apply split_app. Qed.

Lemma lines_of_line (line : string) :
  occurs LF line = false -> lines_of line = [line].
Proof. apply split_no_separator. Qed.

(** Every fix is stored under the whole second of its own time. *)
Lemma Map_set_entries {V : Type} (P : key * V -> Prop) (k : key) (v : V) (m : Map V) :
  Forall P m -> P (k, v) -> Forall P (Map_set k v m).
Proof.
  intros F Pk. induction m as [|[k' v'] m IH]; simpl.
  - now repeat constructor.
  - inversion F as [|? ? Pk' F']; subst.
    destruct (key_eqb k k') eqn:E; constructor; auto.
    apply key_eqb_eq in E. now subst k'.
Qed.

Lemma scan_fix_keys (lines : list string) (st : maps) :
  Forall (fun e => fst e = timeKeyOf (time (snd e))) (rmcPoints st) ->
  Forall (fun e => fst e = timeKeyOf (time (snd e)))
         (rmcPoints (fold_left scanLine lines st)).
Proof.
  revert st. induction lines as [|l lines IH]; intros st F; simpl; [exact F|].
  apply IH. rewrite scanLine_cases.
  destruct (fixOf l) as [r|]; simpl; [|destruct (altOf l); exact F].
  now apply Map_set_entries.
Qed.

(** The entries of a map under a key that has one entry. *)
Lemma filter_key_single {V : Type} (k : key) (v : V) (m : Map V) :
  countKey k m = 1%nat -> Map_get k m = Some v ->
  filter (fun e => key_eqb k (fst e)) m = [(k, v)].
Proof.
  unfold countKey. induction m as [|[k' v'] m IH]; simpl; [discriminate|].
  destruct (key_eqb k k') eqn:E; simpl.
  - intros C [= ->]. apply key_eqb_eq in E. subst k'.
    destruct (filter _ m); [reflexivity | discriminate C].
  - exact IH.
Qed.

(** The combined points of a key are made of the fixes stored under it. *)
Lemma combine_filter_key (st : maps) (k : key) :
  Forall (fun e => fst e = timeKeyOf (time (snd e))) (rmcPoints st) ->
  filter (fun p => key_eqb k (pointKey p)) (combine st)
  = map (fun '(timeKey, rmc) =>
           {| p_lat := lat rmc; p_lon := lon rmc; p_time := time rmc;
              p_alt := Map_get timeKey (ggaAlts st) |})
        (filter (fun e => key_eqb k (fst e)) (rmcPoints st)).
Proof.
  unfold combine. induction (rmcPoints st) as [|[k' r'] m IH]; intros F; [reflexivity|].
  inversion F as [|? ? E F']; subst. simpl in E.
  cbn [map filter fst]. unfold pointKey at 1. cbn [p_time]. rewrite <- E.
  destruct (key_eqb k k'); cbn [map]; now rewrite IH.
Qed.

(** C7. Merging is idempotent under duplicate lines, and the last line
    under a key wins. For a line that is a valid RMC sentence: the file that
    consists of the line twice has exactly one combined point; in every
    file, a second copy of the line right after the first changes nothing in
    the combined points, on lists of lines and on the file text; in every
    file the fix map holds this line's record under its whole-second key
    when no later line stores a fix under that key (whatever earlier lines,
    copies of the line included, stored there), that key has exactly one
    entry, and exactly one combined point has that key: this line's fix
    with the altitude stored under the key. The same holds for a GGA line
    and the altitude map. *)
Theorem merge_last_write_wins (line : string) (r : rmcData) :
  occurs LF line = false ->
  parseNmeaSentence (trim line) = Some (RMC r) ->
  status r = "Valid" ->
  combinedPoints (line ++ newline ++ line) = [bareFix r]
  /\ (forall before after : list string,
        combine (scanLines (before ++ line :: line :: after))
        = combine (scanLines (before ++ line :: after)))
  /\ (forall before after : string,
        combinedPoints
          (before ++ newline ++ line ++ newline ++ line ++ newline ++ after)
        = combinedPoints (before ++ newline ++ line ++ newline ++ after))
  /\ (forall earlier later,
        Forall (fun l => fixKeyOf l <> Some (timeKeyOf (time r))) later ->
        let st := scanLines (earlier ++ line :: later) in
        Map_get (timeKeyOf (time r)) (rmcPoints st) = Some r
        /\ countKey (timeKeyOf (time r)) (rmcPoints st) = 1%nat
        /\ filter (fun p => key_eqb (timeKeyOf (time r)) (pointKey p)) (combine st)
           = [{| p_lat := lat r; p_lon := lon r; p_time := time r;
                 p_alt := Map_get (timeKeyOf (time r)) (ggaAlts st) |}])
  /\ (forall earlier gline g later,
        parseNmeaSentence (trim gline) = Some (GGA g) ->
        Forall (fun l => altKeyOf l <> Some (timeKeyOf (gga_time g))) later ->
        let st := scanLines (earlier ++ gline :: later) in
        Map_get (timeKeyOf (gga_time g)) (ggaAlts st) = Some (alt g)
        /\ countKey (timeKeyOf (gga_time g)) (ggaAlts st) = 1%nat).
Proof.
  intros NL P V.
  assert (Fx : fixOf line = Some r).
  { unfold fixOf. rewrite P, V. reflexivity. }
  assert (Dup : forall before after : list string,
             combine (scanLines (before ++ line :: line :: after))
             = combine (scanLines (before ++ line :: after))).
  { intros before after. rewrite !scanLines_split. simpl.
    now rewrite scanLine_idem. }
  split; [|split; [exact Dup|split; [|split]]].
  - unfold combinedPoints. rewrite (lines_of_two line line NL NL).
    unfold scanLines. simpl. rewrite !scanLine_cases, Fx. simpl.
    rewrite key_eqb_refl. reflexivity.
  - intros before after. unfold combinedPoints.
    rewrite !lines_of_app, !(lines_of_line line NL). simpl. apply Dup.
  - intros earlier later F st.
    assert (G : Map_get (timeKeyOf (time r)) (rmcPoints st) = Some r
                /\ countKey (timeKeyOf (time r)) (rmcPoints st) = 1%nat).
    { subst st. rewrite scanLines_split. simpl.
      assert (U : uniqueKeys (rmcPoints (scanLines earlier))).
      { apply (scan_uniqueKeys earlier noMaps); intros k; unfold countKey; simpl; lia. }
      split.
      - apply scan_keeps_fix; [|exact F].
        rewrite scanLine_cases, Fx. simpl. apply Map_get_set_same.
      - apply scan_keeps_count.
        rewrite scanLine_cases, Fx. simpl. apply countKey_set_same.
        specialize (U (timeKeyOf (time r))). lia. }
    destruct G as [G C]. split; [exact G|]. split; [exact C|].
    rewrite combine_filter_key.
    + now rewrite (filter_key_single _ _ _ C G).
    + subst st. apply scan_fix_keys. constructor.
  - intros earlier gline g later Pg F st. subst st.
    assert (Ax : altOf gline = Some g) by (unfold altOf; now rewrite Pg).
    assert (Nx : fixOf gline = None) by (unfold fixOf; now rewrite Pg).
    rewrite scanLines_split. simpl.
    assert (U : uniqueKeys (ggaAlts (scanLines earlier))).
    { apply (scan_uniqueKeys earlier noMaps); intros k; unfold countKey; simpl; lia. }
    split.
    + apply scan_keeps_alt; [|exact F].
      rewrite scanLine_cases, Nx, Ax. simpl. apply Map_get_set_same.
    + apply scan_keeps_count.
      rewrite scanLine_cases, Nx, Ax. simpl. apply countKey_set_same.
      specialize (U (timeKeyOf (gga_time g))). lia.
Qed.

(** The sample RMC sentence, twice. *)
Lemma merge_last_write_wins_witness :
  occurs LF rmcLine = false
  /\ parseNmeaSentence (trim rmcLine) = Some (RMC sampleFix)
  /\ combinedPoints (rmcLine ++ newline ++ rmcLine) = [bareFix sampleFix]
  /\ combine (scanLines ([ggaLine] ++ rmcLine :: rmcLine :: [voidLine]))
     = combine (scanLines ([ggaLine] ++ rmcLine :: [voidLine])).
Proof.
  split; [vm_compute; reflexivity|].
  split; [vm_compute; reflexivity|].
  destruct (merge_last_write_wins rmcLine sampleFix) as [A [B _]];
    try (vm_compute; reflexivity).
  split; [exact A | apply B].
Defined.

(** ** The filter pipeline *)

Section Filter.
Variables Math_sin Math_cos : number -> number.
Variable Math_atan2 : number -> number -> number.

Let filterStep' := filterStep Math_sin Math_cos Math_atan2.
Let filterFrom' := filterFrom Math_sin Math_cos Math_atan2.
Let tooFast' := tooFast Math_sin Math_cos Math_atan2.
Let distanceKm' := distanceKm Math_sin Math_cos Math_atan2.
Let speedKmh' := speedKmh Math_sin Math_cos Math_atan2.

Variables startTimeUtc endTimeUtc : option Z.

Lemma filterStep_outside (maxSpeedKmh : number) (st : filterState) (p : point) :
  inWindow startTimeUtc endTimeUtc p = false ->
  filterStep' startTimeUtc endTimeUtc maxSpeedKmh st p = st.
Proof.
  unfold inWindow, filterStep', filterStep. intros H.
  destruct (beforeStart startTimeUtc p); [reflexivity|].
  destruct (afterEnd endTimeUtc p); [reflexivity | discriminate H].
Qed.

Lemma filterStep_inside (maxSpeedKmh : number) (st : filterState) (p : point) :
  inWindow startTimeUtc endTimeUtc p = true ->
  filterStep' startTimeUtc endTimeUtc maxSpeedKmh st p =
  match lastPoint st with
  | Some last => if tooFast' maxSpeedKmh last p then st else accept st p
  | None => accept st p
  end.
Proof.
  unfold inWindow, filterStep', filterStep. intros H.
  destruct (beforeStart startTimeUtc p); [discriminate H|].
  destruct (afterEnd endTimeUtc p); [discriminate H | reflexivity].
Qed.




(** Under every cap, what the loop keeps was there before or is a point of
    the window. *)
Lemma filterFrom_sound (maxSpeedKmh : number) (ps : list point) (st : filterState)
      (q : point) :
  In q (filteredPoints (filterFrom' startTimeUtc endTimeUtc maxSpeedKmh st ps)) ->
  In q (filteredPoints st)
  \/ (In q ps /\ inWindow startTimeUtc endTimeUtc q = true).
Proof.
  unfold filterFrom', filterFrom. revert st.
  induction ps as [|p ps IH]; intros st H; simpl in *; [now left|].
  apply IH in H. destruct H as [H|[H W]]; [|right; split; [now right | exact W]].
  fold filterStep' in H.
  destruct (inWindow startTimeUtc endTimeUtc p) eqn:W.
  - rewrite (filterStep_inside _ _ _ W) in H.
    assert (A : In q (filteredPoints (accept st p)) ->
                In q (filteredPoints st) \/ In q (p :: ps) /\ inWindow startTimeUtc endTimeUtc q = true).
    { simpl. intros I. apply in_app_or in I. destruct I as [I|[<-|[]]];
        [now left | right; split; [now left | exact W]]. }
    destruct (lastPoint st); [destruct (tooFast' _ _ _)|]; auto.
  - rewrite (filterStep_outside _ _ _ W) in H. now left.
Qed.



End Filter.



Section SpeedFilter.
Variables Math_sin Math_cos : number -> number.
Variable Math_atan2 : number -> number -> number.
Variables startTimeUtc endTimeUtc : option Z.
Variable maxSpeedKmh : number.

Let step := filterStep Math_sin Math_cos Math_atan2 startTimeUtc endTimeUtc maxSpeedKmh.
Let tooFast' := tooFast Math_sin Math_cos Math_atan2 maxSpeedKmh.
Let distanceKm' := distanceKm Math_sin Math_cos Math_atan2.
Let speedKmh' := speedKmh Math_sin Math_cos Math_atan2.

Lemma not_gt_zero (x : number) :
  lte x (ofZ 0) = true \/ equal x (ofZ 0) = true -> gt x (ofZ 0) = false.
Proof.
  change (ofZ 0) with (S754_zero false).
  destruct x as [s|s| |s m e]; try destruct s; simpl; intros [H|H];
    try reflexivity; discriminate H.
Qed.

(** A point is not too fast when no time has passed or no way was made. *)
Lemma tooFast_degenerate (last cur : point) :
  lte (timeDiffSec last cur) (ofZ 0) = true
  \/ equal (distanceKm' last cur) (ofZ 0) = true ->
  tooFast' last cur = false.
Proof.
  unfold tooFast', tooFast. fold distanceKm'. intros [H|H].
  - rewrite (not_gt_zero _ (or_introl H)). reflexivity.
  - rewrite (not_gt_zero _ (or_intror H)). now rewrite andb_false_r.
Qed.

Lemma step_inside (st : filterState) (p : point) :
  inWindow startTimeUtc endTimeUtc p = true ->
  step st p =
  match lastPoint st with
  | Some last => if tooFast' last p then st else accept st p
  | None => accept st p
  end.
Proof. apply filterStep_inside. Qed.

(** C6. Under a speed cap, a rejected point does not move the anchor. For
    points P0, P1, P2 of the time window, in this order, where the speed
    from P0 to P1 is computed (time has passed and way was made) and exceeds
    the cap while the speed from P0 to P2 does not exceed it: the pipeline
    keeps P0 and P2 and drops P1, whatever the speed from P1 to P2 is, and
    the step that rejects P1 leaves the state with the anchor P0 as it was.
    And a point of the window is accepted whenever the time elapsed since
    the anchor is at most 0 or the distance from it is 0. *)
Theorem speed_filter_keeps_anchor (P0 P1 P2 : point) (st : filterState) (last cur : point) :
  inWindow startTimeUtc endTimeUtc P0 = true ->
  inWindow startTimeUtc endTimeUtc P1 = true ->
  inWindow startTimeUtc endTimeUtc P2 = true ->
  gt (timeDiffSec P0 P1) (ofZ 0) = true ->
  gt (distanceKm' P0 P1) (ofZ 0) = true ->
  gt (speedKmh' P0 P1) maxSpeedKmh = true ->
  gt (speedKmh' P0 P2) maxSpeedKmh = false ->
  lastPoint st = Some last ->
  inWindow startTimeUtc endTimeUtc cur = true ->
  lte (timeDiffSec last cur) (ofZ 0) = true
  \/ equal (distanceKm' last cur) (ofZ 0) = true ->
  filterPoints Math_sin Math_cos Math_atan2 startTimeUtc endTimeUtc maxSpeedKmh [P0; P1; P2]
  = [P0; P2]
  /\ (forall kept,
        step {| lastPoint := Some P0; filteredPoints := kept |} P1
        = {| lastPoint := Some P0; filteredPoints := kept |})
  /\ step st cur = accept st cur.
Proof.
  intros W0 W1 W2 T1 D1 S1 S2 L Wc Deg.
  assert (F1 : tooFast' P0 P1 = true).
  { unfold tooFast', tooFast. fold distanceKm' speedKmh'. now rewrite T1, D1. }
  assert (F2 : tooFast' P0 P2 = false).
  { unfold tooFast', tooFast. fold speedKmh'. rewrite S2. now destruct (_ && _). }
  split; [|split].
  - unfold filterPoints, filterFrom. simpl. fold step.
    rewrite (step_inside _ _ W0). simpl.
    rewrite (step_inside _ _ W1). simpl. rewrite F1.
    rewrite (step_inside _ _ W2). simpl. rewrite F2. reflexivity.
  - intros kept. rewrite (step_inside _ _ W1). simpl. now rewrite F1.
  - rewrite (step_inside _ _ Wc), L. now rewrite (tooFast_degenerate _ _ Deg).
Qed.

End SpeedFilter.

(** Under a cap of 100 km/h the jump is dropped and the third sample point
    is kept, although it is too fast when measured from the jump. *)
Lemma speed_filter_keeps_anchor_witness :
  filterPoints linear_sin unit_cos ratio_atan2 None None (ofZ 100)
    [P0_sample; P1_sample; P2_sample]
  = [P0_sample; P2_sample]
  /\ gt (speedKmh linear_sin unit_cos ratio_atan2 P1_sample P2_sample) (ofZ 100) = true.
Proof.
  split; [|vm_compute; reflexivity].
  apply (speed_filter_keeps_anchor linear_sin unit_cos ratio_atan2 None None (ofZ 100)
           P0_sample P1_sample P2_sample
           {| lastPoint := Some P0_sample; filteredPoints := [P0_sample] |}
           P0_sample P0_sample);
    try (vm_compute; reflexivity).
  left. vm_compute. reflexivity.
Defined.

(** ** The GPX text: where a tag can begin *)

Lemma plain_app (a b : string) : plain (a ++ b) = plain a && plain b.
Proof.
  induction a as [|c a IH]; simpl; [reflexivity|].
  now rewrite IH, andb_assoc.
Qed.

Lemma plain_substring (n m : nat) (s : string) :
  plain s = true -> plain (substring n m s) = true.
Proof.
  revert n m. induction s as [|c s IH]; intros n m H.
  - destruct n, m; reflexivity.
  - simpl in H. apply andb_true_iff in H. destruct H as [Hc Hs].
    destruct n as [|n]; [destruct m as [|m]|]; simpl.
    + reflexivity.
    + rewrite Hc. now apply IH.
    + now apply IH.
Qed.

Lemma plain_uint (u : Decimal.uint) : plain (NilEmpty.string_of_uint u) = true.
Proof. induction u; simpl; auto. Qed.

Lemma plain_digitsOfZ (z : Z) : plain (digitsOfZ z) = true.
Proof. apply plain_uint. Qed.

Lemma plain_zeros (n : nat) : plain (zeros n) = true.
Proof. induction n; simpl; auto. Qed.

Lemma plain_pad (w : nat) (z : Z) : plain (pad w z) = true.
Proof.
  unfold pad, padZeros. now rewrite plain_app, plain_zeros, plain_digitsOfZ.
Qed.

Lemma plain_fixedDigits (f : nat) (n : Z) : plain (fixedDigits f n) = true.
Proof.
  unfold fixedDigits. destruct f as [|f]; [apply plain_digitsOfZ|].
  assert (P : plain (padZeros (S (S f)) (digitsOfZ n)) = true).
  { unfold padZeros. now rewrite plain_app, plain_zeros, plain_digitsOfZ. }
  rewrite !plain_app, !plain_substring by exact P. reflexivity.
Qed.

Lemma plain_toStringLarge (m : positive) (e : Z) : plain (toStringLarge m e) = true.
Proof.
  unfold toStringLarge.
  destruct (shortestDigits _ _ _ _ _) as [[k s] n']. cbv zeta.
  assert (X : plain ("e+" ++ digitsOfZ (n' - 1)) = true).
  { rewrite plain_app, plain_digitsOfZ. reflexivity. }
  pose proof (plain_digitsOfZ s) as D.
  destruct (digitsOfZ s) as [|c [|c' r]]; [exact X | |].
  - rewrite plain_app, D, X. reflexivity.
  - simpl in D. apply andb_true_iff in D. destruct D as [Dc D].
    change (String c ("." ++ String c' r) ++ "e+" ++ digitsOfZ (n' - 1))
      with (String c (String "." (String c' r ++ "e+" ++ digitsOfZ (n' - 1)))).
    simpl. rewrite Dc. simpl.
    apply andb_true_iff in D. destruct D as [Dc' D]. rewrite Dc'. simpl.
    rewrite plain_app, D. exact X.
Qed.

Lemma plain_toFixed (f : nat) (x : number) : plain (toFixed f x) = true.
Proof.
  unfold toFixed. destruct x as [s|s| |s m e]; try destruct s; try reflexivity;
    try apply plain_fixedDigits;
    repeat match goal with
           | |- context [if ?b then _ else _] => destruct b
           end;
    rewrite plain_app, ?plain_toStringLarge, ?plain_fixedDigits; reflexivity.
Qed.

Lemma plain_isoString (t : Z) : plain (isoString t) = true.
Proof.
  unfold isoString.
  repeat match goal with
         | |- context [if ?b then _ else _] => destruct b
         end;
    rewrite !plain_app, !plain_pad; reflexivity.
Qed.

Lemma noEleStart_plain (s : string) : plain s = true -> noEleStart s = true.
Proof.
  induction s as [|c s IH]; simpl; [reflexivity|].
  intros H. apply andb_true_iff in H. destruct H as [Hc Hs].
  destruct (Ascii.eqb c "<"); [discriminate Hc|]. now apply IH.
Qed.

Lemma noEleStart_app (a b : string) :
  noEleStart a = true -> noEleStart b = true -> noEleStart (a ++ b) = true.
Proof.
  intros Ha Hb. induction a as [|c a IH]; simpl in *; [exact Hb|].
  apply andb_true_iff in Ha. destruct Ha as [Hc Ha].
  rewrite (IH Ha), andb_true_r.
  destruct (Ascii.eqb c "<"); [|reflexivity].
  destruct a as [|d a]; [discriminate Hc | exact Hc].
Qed.

Lemma noEleStart_contains (s : string) :
  noEleStart s = true -> contains "<ele>" s = false.
Proof.
  induction s as [|c s IH]; [reflexivity|].
  intros H. change (noEleStart (String c s)) with
    ((if Ascii.eqb c "<" then
        match s with
        | String d _ => negb (Ascii.eqb d "e")
        | EmptyString => false
        end
      else true) && noEleStart s) in H.
  apply andb_true_iff in H. destruct H as [Hc Hs].
  change (contains "<ele>" (String c s))
    with (startsWith "<ele>" (String c s) || contains "<ele>" s).
  rewrite (IH Hs), orb_false_r.
  change (startsWith "<ele>" (String c s))
    with (Ascii.eqb "<" c && startsWith "ele>" s).
  rewrite Ascii.eqb_sym. destruct (Ascii.eqb c "<"); [|reflexivity].
  destruct s as [|d s]; [reflexivity|].
  change (startsWith "ele>" (String d s))
    with (Ascii.eqb "e" d && startsWith "le>" s).
  rewrite Ascii.eqb_sym. destruct (Ascii.eqb d "e"); [discriminate Hc | reflexivity].
Qed.

Lemma noEleStart_trkpt (p : point) (t : Z) :
  p_alt p = None -> noEleStart (trkpt p (isoString t)) = true.
Proof.
  intros A. unfold trkpt. rewrite A.
  repeat match goal with
         | |- noEleStart (_ ++ _) = true => apply noEleStart_app
         end;
    try reflexivity;
    apply noEleStart_plain; auto using plain_toFixed, plain_isoString.
Qed.

(** The text that the serializer returns has no <ele> tag when no point
    has an altitude. *)
Lemma serialize_noEleStart (ps : list point) (gpxXml result : string) :
  noEleStart gpxXml = true ->
  (forall p, In p ps -> p_alt p = None) ->
  serialize gpxXml ps = Return result ->
  noEleStart result = true.
Proof.
  revert gpxXml. induction ps as [|p ps IH]; intros gpxXml S A H; simpl in H.
  - injection H as <-. now apply noEleStart_app.
  - destruct (p_time p) as [t|]; simpl in H; [|discriminate H].
    apply (IH (gpxXml ++ trkpt p (isoString t))); [| |exact H].
    + apply noEleStart_app; [exact S|]. apply noEleStart_trkpt. apply A. now left.
    + intros q I. apply A. now right.
Qed.

(** ** Sorting keeps the points *)

Lemma insertSorted_In (a q : point) (l : list point) :
  In q (insertSorted a l) -> q = a \/ In q l.
Proof.
  induction l as [|b l IH]; simpl.
  - intros [<-|[]]. now left.
  - destruct (comesAfter a b); simpl.
    + intros [<-|H]; [right; now left|].
      destruct (IH H) as [->|I]; [now left | right; now right].
    + intros [<-|H]; [now left | now right].
Qed.

Lemma sortByTime_In (q : point) (l : list point) : In q (sortByTime l) -> In q l.
Proof.
  induction l as [|a l IH]; simpl; [tauto|].
  intros H. apply insertSorted_In in H. destruct H as [->|H]; [now left|].
  right. now apply IH.
Qed.

(** ** The range of a two-character [parseInt] *)

Lemma substring_length_le (a n : nat) (s : string) :
  (String.length (substring a n s) <= n)%nat.
Proof.
  revert a n. induction s as [|c s IH]; intros a n.
  - destruct a, n; simpl; lia.
  - destruct a as [|a]; [destruct n as [|n]|]; simpl.
    + lia.
    + specialize (IH 0%nat n). lia.
    + apply IH.
Qed.

Lemma trimStart_length (s : string) :
  (String.length (trimStart s) <= String.length s)%nat.
Proof.
  induction s as [|c s IH]; simpl; [lia|].
  destruct (isWhiteSpace c); simpl; lia.
Qed.

Lemma signPrefix_length (s : string) :
  (String.length (snd (signPrefix s)) <= String.length s)%nat.
Proof.
  unfold signPrefix. destruct s as [|c s]; simpl; [lia|].
  destruct c as [[] [] [] [] [] [] [] []]; simpl; lia.
Qed.

Lemma digitsPrefix_spec (s : string) :
  allDigits (fst (digitsPrefix s)) = true
  /\ (String.length (fst (digitsPrefix s)) <= String.length s)%nat.
Proof.
  induction s as [|c s [IH1 IH2]]; simpl; [split; [reflexivity | lia]|].
  destruct (isDigit c) eqn:D; simpl; [|split; [reflexivity | lia]].
  destruct (digitsPrefix s) as [d r]; simpl in *.
  rewrite D, IH1. split; [reflexivity | lia].
Qed.

Lemma digitVal_range (c : ascii) : isDigit c = true -> 0 <= digitVal c <= 9.
Proof.
  unfold isDigit, digitVal. intros H. apply andb_true_iff in H.
  destruct H as [H1 H2]. apply N.leb_le in H1, H2. lia.
Qed.

Lemma digitsValue_range (d : string) (acc : Z) :
  allDigits d = true -> 0 <= acc ->
  0 <= digitsValue acc d < (acc + 1) * 10 ^ Z.of_nat (String.length d).
Proof.
  revert acc. induction d as [|c d IH]; intros acc A H.
  - simpl. lia.
  - simpl in A. apply andb_true_iff in A. destruct A as [Ac Ad].
    pose proof (digitVal_range c Ac) as V.
    cbn [digitsValue String.length].
    specialize (IH (10 * acc + digitVal c) Ad ltac:(lia)).
    rewrite Nat2Z.inj_succ, Z.pow_succ_r by lia. nia.
Qed.

(** Integers of at most two digits convert exactly. *)
Lemma truncate_ofZ_small (v : Z) : -99 <= v <= 99 -> truncate (ofZ v) = Some v.
Proof.
  intros H.
  assert (A : forallb (fun n => match truncate (ofZ (Z.of_nat n - 99)) with
                                | Some z => z =? Z.of_nat n - 99
                                | None => false
                                end) (seq 0 199) = true) by (vm_compute; reflexivity).
  rewrite forallb_forall in A. specialize (A (Z.to_nat (v + 99))).
  replace (Z.of_nat (Z.to_nat (v + 99)) - 99) with v in A by lia.
  destruct (truncate (ofZ v)) as [z|].
  - f_equal. apply Z.eqb_eq. apply A. apply in_seq. lia.
  - discriminate A. apply in_seq. lia.
Qed.

(** [parseInt] of a string of at most two characters is NaN or an integer
    from -99 to 99. *)
Lemma parseInt_two_chars (s : string) :
  (String.length s <= 2)%nat ->
  match truncate (parseInt s) with
  | Some z => -99 <= z <= 99
  | None => True
  end.
Proof.
  intros L. unfold parseInt.
  pose proof (trimStart_length s) as L1.
  pose proof (signPrefix_length (trimStart s)) as L2.
  destruct (signPrefix (trimStart s)) as [sg s1]. simpl in L2.
  destruct (digitsPrefix_spec s1) as [D L3].
  destruct (digitsPrefix s1) as [ds r]. simpl in D, L3.
  destruct ds as [|c ds]; [exact I|].
  pose proof (digitsValue_range (String c ds) 0 D ltac:(lia)) as R.
  assert (P : 10 ^ Z.of_nat (String.length (String c ds)) <= 10 ^ 2).
  { apply Z.pow_le_mono_r; lia. }
  set (v := digitsValue 0 (String c ds)) in *.
  destruct (v =? 0); [simpl; lia|].
  rewrite truncate_ofZ_small; destruct sg; lia.
Qed.

(** ** The placeholder date of the altitude records *)

Lemma TimeClip_some (x t : Z) : TimeClip x = Some t -> t = x.
Proof.
  unfold TimeClip. destruct (Z.abs x <=? 8640000000000000); congruence.
Qed.

Lemma placeholder_offset (h m s : Z) :
  h <= 99 -> m <= 99 -> s < 1000000000 ->
  MakeDate (-25568) (MakeTime h m s 0) / 1000 < year2000.
Proof.
  intros H M S. unfold MakeDate, MakeTime, msPerDay, year2000.
  apply Z.div_lt_upper_bound; lia.
Qed.

(** The time value that [Date.UTC(0, 0, 0, h, m, s)] builds from hours and
    minutes of at most two characters and a seconds part below 10^9 lies
    before the year 2000: the placeholder day is 1899-12-31. *)
Lemma placeholder_date_before_2000 (hh mm : string) (seconds : number) (t : Z) :
  (String.length hh <= 2)%nat -> (String.length mm <= 2)%nat ->
  match truncate seconds with
  | Some z => z < 1000000000
  | None => True
  end ->
  Date_UTC (ofZ 0) (ofZ 0) (ofZ 0) (parseInt hh) (parseInt mm) seconds = Some t ->
  t / 1000 < year2000.
Proof.
  intros Lh Lm S. unfold Date_UTC.
  change (truncate (ofZ 0)) with (Some 0).
  pose proof (parseInt_two_chars hh Lh) as H.
  pose proof (parseInt_two_chars mm Lm) as M.
  destruct (truncate (parseInt hh)) as [h|]; [|discriminate].
  destruct (truncate (parseInt mm)) as [m|]; [|discriminate].
  destruct (truncate seconds) as [s|]; [|discriminate].
  change (MakeDay (MakeFullYear 0) 0 0) with (-25568).
  intros E. apply TimeClip_some in E. subst t.
  apply placeholder_offset; lia.
Qed.

(** ** Keys of fixes and keys of altitudes *)

Lemma altOf_before_2000 (line : string) (g : ggaData) :
  altOf line = Some g ->
  ggaSecondsBelow 1000000000 line = true ->
  before2000 (timeKeyOf (gga_time g)).
Proof.
  unfold altOf, ggaSecondsBelow, ggaSecondsOf. intros A B.
  destruct (parseNmeaSentence (trim line)) as [[r|g']|] eqn:P; try discriminate A.
  injection A as ->.
  pose proof (parseNmeaSentence_kind _ _ P) as K. simpl in K.
  rewrite K in B. simpl in B.
  unfold parseNmeaSentence in P. rewrite K in P. simpl in P.
  destruct (_ <? _)%nat; [discriminate P|].
  destruct (isNaN _); [discriminate P|].
  injection P as <-. simpl.
  set (timeStr := part 1 (split "," (trim line))) in *.
  destruct (Date_UTC _ _ _ _ _ _) as [t|] eqn:D; simpl; [|exact I].
  apply (placeholder_date_before_2000 _ _ _ _
           (substring_length_le 0 2 timeStr) (substring_length_le 2 2 timeStr)) in D;
    [exact D|].
  destruct (truncate _) as [z|]; [|exact I]. now apply Z.ltb_lt.
Qed.

Lemma fixOf_from_2000 (line : string) (r : rmcData) :
  fixOf line = Some r -> datedIn2000s line = true -> from2000 (timeKeyOf (time r)).
Proof.
  unfold datedIn2000s. intros F. rewrite F.
  destruct (time r) as [t|]; simpl; [|discriminate].
  intros H. apply andb_true_iff in H. destruct H as [H _].
  apply Z.leb_le in H. unfold year2000.
  apply Z.div_le_lower_bound; lia.
Qed.

Lemma from_before_differ (k k' : key) : from2000 k -> before2000 k' -> k' <> k.
Proof.
  destruct k as [z|], k' as [z'|]; simpl; try tauto; try discriminate.
  intros A B [= ->]. lia.
Qed.

Section KeyFacts.
Context {V : Type}.

Lemma Map_set_keys (P : key -> Prop) (k : key) (v : V) (m : Map V) :
  Forall P (map fst m) -> P k -> Forall P (map fst (Map_set k v m)).
Proof.
  intros F Pk. induction m as [|[k' v'] m IH]; simpl.
  - constructor; [exact Pk | constructor].
  - inversion F as [|? ? Pk' F']; subst.
    destruct (key_eqb k k'); simpl; constructor; auto.
Qed.

Lemma Map_get_absent (k : key) (m : Map V) :
  Forall (fun k' => k' <> k) (map fst m) -> Map_get k m = None.
Proof.
  induction m as [|[k' v'] m IH]; simpl; [reflexivity|].
  intros F. inversion F as [|? ? N F']; subst.
  destruct (key_eqb k k') eqn:E; [|now apply IH].
  apply key_eqb_eq in E. congruence.
Qed.

End KeyFacts.

(** While every fix is dated from 2000 on and every altitude is keyed before
    2000, the two maps have no key in common. *)
Lemma scan_separates (lines : list string) (st : maps) :
  forallb datedIn2000s lines = true ->
  forallb (ggaSecondsBelow 1000000000) lines = true ->
  Forall from2000 (map fst (rmcPoints st)) ->
  Forall before2000 (map fst (ggaAlts st)) ->
  Forall from2000 (map fst (rmcPoints (fold_left scanLine lines st)))
  /\ Forall before2000 (map fst (ggaAlts (fold_left scanLine lines st))).
Proof.
  revert st. induction lines as [|l lines IH]; intros st D G R A; simpl; [now split|].
  simpl in D, G. apply andb_true_iff in D, G. destruct D as [Dl D], G as [Gl G].
  apply IH; try assumption; rewrite scanLine_cases.
  - destruct (fixOf l) as [r|] eqn:F; simpl.
    + apply Map_set_keys; [exact R | now apply (fixOf_from_2000 l)].
    + destruct (altOf l); exact R.
  - destruct (fixOf l) as [r|] eqn:F; simpl; [exact A|].
    destruct (altOf l) as [g|] eqn:Al; simpl; [|exact A].
    apply Map_set_keys; [exact A | now apply (altOf_before_2000 l)].
Qed.

Lemma combine_no_altitude (st : maps) (p : point) :
  Forall from2000 (map fst (rmcPoints st)) ->
  Forall before2000 (map fst (ggaAlts st)) ->
  In p (combine st) -> p_alt p = None.
Proof.
  intros R A I. unfold combine in I. apply in_map_iff in I.
  destruct I as [[k r] [<- I]]. simpl.
  apply Map_get_absent.
  assert (K : from2000 k).
  { rewrite Forall_forall in R. apply R. apply in_map_iff. now exists (k, r). }
  eapply Forall_impl; [|exact A]. intros k' B. now apply (from_before_differ k k').
Qed.

(** C2 (amended). For every input file whose valid RMC fixes are all valid
    instants of the years 2000 to 2099 and whose GGA time fields all have a
    seconds part below 10^9 (or not a finite number), every combined point
    of the merge has no altitude, and a GPX text that [convertToGpx] returns
    contains no <ele> element: the altitude keys are built on the
    placeholder day 1899-12-31. *)
Theorem no_elevation_for_2000s (fileContent : string) :
  forallb datedIn2000s (lines_of fileContent) = true ->
  forallb (ggaSecondsBelow 1000000000) (lines_of fileContent) = true ->
  (forall p, In p (combinedPoints fileContent) -> p_alt p = None)
  /\ (forall Math_sin Math_cos Math_atan2 Date_parse
             speedFilterType startTimeStr endTimeStr gpxXml,
        convertToGpx Math_sin Math_cos Math_atan2 Date_parse
          fileContent speedFilterType startTimeStr endTimeStr = Return gpxXml ->
        contains "<ele>" gpxXml = false).
Proof.
  intros D G.
  assert (N : forall p, In p (combinedPoints fileContent) -> p_alt p = None).
  { intros p. unfold combinedPoints, scanLines.
    destruct (scan_separates (lines_of fileContent) noMaps D G) as [R A];
      [constructor | constructor |].
    now apply combine_no_altitude. }
  split; [exact N|].
  intros Math_sin Math_cos Math_atan2 Date_parse speedFilterType startTimeStr
    endTimeStr gpxXml H.
  unfold convertToGpx in H.
  destruct (combinedPoints fileContent) as [|c cs] eqn:C; [discriminate H|].
  set (kept := filterPoints _ _ _ _ _ _ _) in H.
  assert (K : forall p, In p kept -> p_alt p = None).
  { intros p I. apply N. apply sortByTime_In.
    unfold kept, filterPoints in I. apply filterFrom_sound in I.
    destruct I as [[]|[I _]]. exact I. }
  destruct kept as [|k ks]; [discriminate H|].
  apply noEleStart_contains.
  apply (serialize_noEleStart (k :: ks) gpxHeader); [reflexivity | exact K | exact H].
Qed.

(** The file of the end-to-end example. *)
Lemma no_elevation_for_2000s_witness :
  (forall p, In p (combinedPoints sampleFile) -> p_alt p = None)
  /\ (forall Math_sin Math_cos Math_atan2 Date_parse
             speedFilterType startTimeStr endTimeStr gpxXml,
        convertToGpx Math_sin Math_cos Math_atan2 Date_parse
          sampleFile speedFilterType startTimeStr endTimeStr = Return gpxXml ->
        contains "<ele>" gpxXml = false).
Proof.
  apply (no_elevation_for_2000s sampleFile); vm_compute; reflexivity.
Defined.

(** C2 (as stated) fails. The file of the RMC sentence, whose date field
    decodes to the year 2025, and of a GGA sentence whose time field has the
    seconds part 3944808000 has a combined point with the altitude 100, and
    its GPX text contains an <ele> element. So has the file of the GGA
    sentence at 12:00:00 and of an RMC sentence dated 010125 whose time
    field has the seconds part -3944721600. *)
Lemma elevation_attached_in_2025 :
  parseInt (substring2 4 6 (part 9 (split "," rmcLine))) = ofZ 25
  /\ map time (map snd (rmcPoints (scanLines (lines_of longSecondsFile))))
     = [Some 1735732800000]
  /\ toISOString (Some 1735732800000) = Some "2025-01-01T12:00:00.000Z"
  /\ map p_alt (combinedPoints longSecondsFile) = [Some (ofZ 100)]
  /\ match convertToGpx linear_sin unit_cos ratio_atan2 (fun _ => None)
             longSecondsFile "none" "" "" with
     | Return gpxXml => contains "<ele>100.00</ele>" gpxXml = true
     | Throw _ => False
     end
  /\ parseInt (substring2 4 6 (part 9 (split "," negativeSecondsRmc))) = ofZ 25
  /\ map p_alt (combinedPoints negativeSecondsFile) = [Some (ofZ 100)]
  /\ match convertToGpx linear_sin unit_cos ratio_atan2 (fun _ => None)
             negativeSecondsFile "none" "" "" with
     | Return gpxXml => contains "<ele>100.00</ele>" gpxXml = true
     | Throw _ => False
     end.
Proof. repeat split; vm_compute; reflexivity. Qed.

(** * Further properties of the converter *)

(** ** When [convertToGpx] reports that there are no valid points *)

Lemma Map_set_not_nil {V : Type} (k : key) (v : V) (m : Map V) : Map_set k v m <> [].
Proof. destruct m as [|[k' v'] m]; simpl; [|destruct (key_eqb k k')]; discriminate. Qed.

Lemma scan_no_fix (lines : list string) (st : maps) :
  rmcPoints (fold_left scanLine lines st) = []
  <-> rmcPoints st = [] /\ forallb storesNoFix lines = true.
Proof.
  revert st. induction lines as [|l lines IH]; intros st; simpl.
  - tauto.
  - rewrite IH, scanLine_cases. unfold storesNoFix.
    destruct (fixOf l) as [r|]; simpl.
    + split; [intros [H _]; now apply Map_set_not_nil in H | intros [_ H]; discriminate H].
    + destruct (altOf l); simpl; tauto.
Qed.

Lemma combinedPoints_nil (fileContent : string) :
  combinedPoints fileContent = []
  <-> forallb storesNoFix (lines_of fileContent) = true.
Proof.
  unfold combinedPoints, combine, scanLines.
  pose proof (scan_no_fix (lines_of fileContent) noMaps) as S. simpl in S.
  split.
  - intros H. apply map_eq_nil in H. now apply S.
  - intros H. destruct S as [_ S]. now rewrite (S (conj eq_refl H)).
Qed.

Lemma serialize_not_Error (ps : list point) (gpxXml : string) :
  serialize gpxXml ps <> Throw Error_NoValidPoints
  /\ serialize gpxXml ps <> Throw Error_NoPointsLeft.
Proof.
  revert gpxXml. induction ps as [|p ps IH]; intros gpxXml; simpl.
  - split; discriminate.
  - destruct (toISOString (p_time p)); [apply IH | split; discriminate].
Qed.

(** X1. [convertToGpx] throws the "no valid GPS data points" error exactly
    when no line of the file stores a fix, that is, when no line is an RMC
    sentence with status A, at least 10 fields and non-empty coordinate
    fields; the configuration plays no part. The empty file is such a file. *)
Theorem no_valid_points_iff_no_fix
        (Math_sin Math_cos : number -> number) (Math_atan2 : number -> number -> number)
        (Date_parse : string -> Date)
        (fileContent speedFilterType startTimeStr endTimeStr : string) :
  (convertToGpx Math_sin Math_cos Math_atan2 Date_parse
     fileContent speedFilterType startTimeStr endTimeStr = Throw Error_NoValidPoints
   <-> forallb storesNoFix (lines_of fileContent) = true)
  /\ convertToGpx Math_sin Math_cos Math_atan2 Date_parse
       "" speedFilterType startTimeStr endTimeStr = Throw Error_NoValidPoints.
Proof.
  split; [|reflexivity].
  rewrite <- combinedPoints_nil. unfold convertToGpx.
  destruct (combinedPoints fileContent) as [|c cs]; [tauto|].
  split; [|discriminate].
  destruct (filterPoints _ _ _ _ _ _ _) as [|k ks]; [discriminate|].
  intros H. now apply serialize_not_Error in H.
Qed.

(** ** The sort *)

Lemma insertSorted_perm (a : point) (l : list point) :
  Permutation (insertSorted a l) (a :: l).
Proof.
  induction l as [|b l IH]; simpl; [reflexivity|].
  destruct (comesAfter a b); [|reflexivity].
  rewrite IH. apply perm_swap.
Qed.

Lemma sortByTime_perm (l : list point) : Permutation (sortByTime l) l.
Proof.
  induction l as [|a l IH]; simpl; [reflexivity|].
  rewrite insertSorted_perm. now constructor.
Qed.

Lemma comesAfter_asym (a b : point) : comesAfter a b = true -> comesAfter b a = false.
Proof.
  unfold comesAfter, Date_minus.
  destruct (p_time a) as [x|], (p_time b) as [y|]; try discriminate.
  rewrite (Z.compare_antisym x y). destruct (x ?= y); simpl; congruence.
Qed.

Lemma insertSorted_sorted (a : point) (l : list point) :
  Sorted inOrder l -> Sorted inOrder (insertSorted a l).
Proof.
  induction l as [|b l IH]; intros S; simpl.
  - repeat constructor.
  - destruct (comesAfter a b) eqn:E.
    + apply Sorted_inv in S. destruct S as [S H].
      constructor; [now apply IH|].
      destruct l as [|c l]; simpl.
      * constructor. now apply comesAfter_asym.
      * destruct (comesAfter a c); constructor.
        -- now inversion H.
        -- now apply comesAfter_asym.
    + constructor; [exact S | constructor; exact E].
Qed.

Lemma sortByTime_sorted (l : list point) : Sorted inOrder (sortByTime l).
Proof.
  induction l as [|a l IH]; simpl; [constructor | now apply insertSorted_sorted].
Qed.

Lemma inOrder_timeLe (a b : point) :
  hasValidTime a = true -> hasValidTime b = true -> inOrder a b -> timeLe a b.
Proof.
  unfold hasValidTime, inOrder, comesAfter, timeLe, Date_minus.
  destruct (p_time a) as [x|], (p_time b) as [y|]; try discriminate.
  intros _ _ H. destruct (x ?= y) eqn:C; try discriminate H.
  - apply Z.compare_eq in C. subst y. apply Z.le_refl.
  - apply Z.compare_lt_iff in C. now apply Z.lt_le_incl.
Qed.

Lemma timeLe_trans (a b c : point) : timeLe a b -> timeLe b c -> timeLe a c.
Proof.
  unfold timeLe.
  destruct (p_time a), (p_time b), (p_time c); simpl; intros; try contradiction; lia.
Qed.

Lemma sorted_valid_timeLe (l : list point) :
  forallb hasValidTime l = true -> Sorted inOrder l -> StronglySorted timeLe l.
Proof.
  intros V S. apply Sorted_StronglySorted; [exact timeLe_trans|].
  induction S as [|a l S IH H]; [constructor|].
  simpl in V. apply andb_true_iff in V. destruct V as [Va V].
  constructor; [now apply IH|].
  destruct H as [|b l H]; constructor.
  simpl in V. apply andb_true_iff in V. now apply inOrder_timeLe.
Qed.


(** X2. The sort rearranges the combined points without adding or losing
    one, and puts no point directly before one that the comparator places
    earlier; when every point has a valid time, the result is in
    ascending order of time. *)
Theorem sortByTime_sorts (l : list point) :
  Permutation (sortByTime l) l
  /\ Sorted inOrder (sortByTime l)
  /\ (forallb hasValidTime l = true -> StronglySorted timeLe (sortByTime l)).
Proof.
  split; [apply sortByTime_perm|]. split; [apply sortByTime_sorted|].
  intros V. apply sorted_valid_timeLe; [|apply sortByTime_sorted].
  rewrite forallb_forall in *. intros p I. apply V.
  apply (Permutation_in p (sortByTime_perm l) I).
Qed.



(** ** What the filtering loop keeps *)

Section FilterShape.
Variables Math_sin Math_cos : number -> number.
Variable Math_atan2 : number -> number -> number.
Variables startTimeUtc endTimeUtc : option Z.
Variable maxSpeedKmh : number.

Let run := filterFrom Math_sin Math_cos Math_atan2 startTimeUtc endTimeUtc maxSpeedKmh.
Let step := filterStep Math_sin Math_cos Math_atan2 startTimeUtc endTimeUtc maxSpeedKmh.
Let slowEnough (a b : point) : Prop :=
  tooFast Math_sin Math_cos Math_atan2 maxSpeedKmh a b = false.
Let window := inWindow startTimeUtc endTimeUtc.

(** The anchor is the last point that was kept. *)
Let anchored (st : filterState) : Prop :=
  lastPoint st = last (map Some (filteredPoints st)) None.

Lemma last_snoc {A : Type} (l : list A) (x d : A) : last (l ++ [x])%list d = x.
Proof.
  induction l as [|y l IH]; [reflexivity|].
  simpl. destruct (l ++ [x])%list eqn:E; [now destruct l | exact IH].
Qed.

Lemma anchored_accept (st : filterState) (p : point) : anchored (accept st p).
Proof.
  unfold anchored, accept. cbn [lastPoint filteredPoints]. rewrite map_app.
  symmetry. apply (last_snoc (map Some (filteredPoints st)) (Some p) None).
Qed.

Lemma step_cases (st : filterState) (p : point) :
  (step st p = st /\ (window p = false \/ exists a, lastPoint st = Some a /\ window p = true))
  \/ (step st p = accept st p /\ window p = true
      /\ forall a, lastPoint st = Some a -> slowEnough a p).
Proof.
  destruct (window p) eqn:W.
  - unfold step. rewrite (filterStep_inside _ _ _ _ _ _ _ _ W).
    destruct (lastPoint st) as [a|] eqn:L.
    + destruct (tooFast _ _ _ _ a p) eqn:T.
      * left. split; [reflexivity|]. right. now exists a.
      * right. split; [reflexivity|]. split; [reflexivity|].
        intros a' [= <-]. exact T.
    + right. split; [reflexivity|]. split; [reflexivity|]. discriminate.
  - left. unfold step. rewrite (filterStep_outside _ _ _ _ _ _ _ _ W). now split; [|left].
Qed.

Lemma Sorted_snoc {A : Type} (R : A -> A -> Prop) (l : list A) (x : A) :
  Sorted R l ->
  (forall a, last (map Some l) None = Some a -> R a x) ->
  Sorted R (l ++ [x])%list.
Proof.
  induction l as [|y l IH]; intros S H; simpl.
  - repeat constructor.
  - apply Sorted_inv in S. destruct S as [S Hd].
    constructor.
    + apply IH; [exact S|]. intros a E. apply H. simpl.
      destruct (map Some l) eqn:M; [discriminate E | exact E].
    + destruct l as [|z l]; simpl.
      * constructor. now apply H.
      * constructor. now inversion Hd.
Qed.

Lemma subseq_refl {A : Type} (l : list A) : subseq l l.
Proof. induction l; constructor; assumption. Qed.

Lemma subseq_app_l {A : Type} (l l1 l2 : list A) :
  subseq l1 l2 -> subseq (l ++ l1)%list (l ++ l2)%list.
Proof. intros H. induction l; simpl; [exact H | now constructor]. Qed.

(** The loop extends what was kept before by some of the points of the
    window, in their order; consecutive points that are kept are slow
    enough; and when nothing was kept before, the first point of the window
    is kept. *)
Lemma run_shape (ps : list point) (st : filterState) :
  anchored st ->
  Sorted slowEnough (filteredPoints st) ->
  exists rest,
    filteredPoints (run st ps) = (filteredPoints st ++ rest)%list
    /\ subseq rest (filter window ps)
    /\ Sorted slowEnough (filteredPoints st ++ rest)%list
    /\ (lastPoint st = None -> hd_error rest = hd_error (filter window ps)).
Proof.
  unfold run, filterFrom. revert st.
  induction ps as [|p ps IH]; intros st A S; simpl.
  - exists []. rewrite app_nil_r. repeat split; [constructor | exact S].
  - fold step. destruct (step_cases st p) as [[E W]|[E [W T]]]; rewrite E.
    + destruct (IH st A S) as [rest [R1 [R2 [R3 R4]]]].
      exists rest. split; [exact R1|]. split; [|split; [exact R3|]].
      * destruct W as [W|[a [_ W]]]; fold window; rewrite W; [exact R2 | now constructor].
      * intros L. destruct W as [W|[a [La _]]]; [|congruence].
        fold window. rewrite W. now apply R4.
    + assert (S' : Sorted slowEnough (filteredPoints (accept st p))).
      { simpl. apply Sorted_snoc; [exact S|]. intros a La. apply T.
        now rewrite A. }
      destruct (IH (accept st p) (anchored_accept st p) S') as [rest [R1 [R2 [R3 _]]]].
      simpl in R1, R3. rewrite <- app_assoc in R1, R3. simpl in R1, R3.
      exists (p :: rest). split; [exact R1|]. fold window. rewrite W.
      split; [now constructor|]. split; [exact R3 | reflexivity].
Qed.

(** X4. The filtered points are some of the points of the time window, in
    their order, beginning with the first point of the window (the speed
    filter never rejects it); and of any two consecutive filtered points
    the second one is not too fast when measured from the first. *)
Theorem filterPoints_shape (ps : list point) :
  let kept :=
    filterPoints Math_sin Math_cos Math_atan2 startTimeUtc endTimeUtc maxSpeedKmh ps in
  subseq kept (filter window ps)
  /\ hd_error kept = hd_error (filter window ps)
  /\ Sorted slowEnough kept.
Proof.
  unfold filterPoints. fold run.
  destruct (run_shape ps {| lastPoint := None; filteredPoints := [] |})
    as [rest [R1 [R2 [R3 R4]]]]; [reflexivity | constructor |].
  simpl in *. rewrite R1. repeat split; auto.
Qed.

(** The filter empties the list exactly when no point is in the window. *)
Lemma filterPoints_nil (ps : list point) :
  filterPoints Math_sin Math_cos Math_atan2 startTimeUtc endTimeUtc maxSpeedKmh ps = []
  <-> forallb (fun p => negb (window p)) ps = true.
Proof.
  assert (F : filter window ps = [] <-> forallb (fun p => negb (window p)) ps = true).
  { induction ps as [|p ps IH]; simpl; [tauto|].
    destruct (window p); simpl; [split; discriminate | exact IH]. }
  assert (H : hd_error (filterPoints Math_sin Math_cos Math_atan2 startTimeUtc
                          endTimeUtc maxSpeedKmh ps)
              = hd_error (filter window ps)).
  { unfold filterPoints. fold run.
    destruct (run_shape ps {| lastPoint := None; filteredPoints := [] |})
      as [rest [R1 [_ [_ R4]]]]; [reflexivity | constructor |].
    simpl in *. rewrite R1. now apply R4. }
  rewrite <- F. split; intros E; rewrite E in H; simpl in H.
  - destruct (filter window ps); [reflexivity | discriminate H].
  - destruct (filterPoints _ _ _ _ _ _ _); [reflexivity | discriminate H].
Qed.

End FilterShape.

(** X5. [convertToGpx] throws the "no data points left after filtering"
    error exactly when the file has a combined point and every combined
    point lies outside the time window; the speed cap alone never empties
    the result. *)
Theorem no_points_left_iff_window_empty
        (Math_sin Math_cos : number -> number) (Math_atan2 : number -> number -> number)
        (Date_parse : string -> Date)
        (fileContent speedFilterType startTimeStr endTimeStr : string) :
  convertToGpx Math_sin Math_cos Math_atan2 Date_parse
    fileContent speedFilterType startTimeStr endTimeStr = Throw Error_NoPointsLeft
  <-> combinedPoints fileContent <> []
      /\ forall p, In p (combinedPoints fileContent) ->
           inWindow (parseJstToUtc Date_parse startTimeStr)
                    (parseJstToUtc Date_parse endTimeStr) p = false.
Proof.
  unfold convertToGpx.
  destruct (combinedPoints fileContent) as [|c cs] eqn:C.
  - split; [discriminate | intros [H _]; contradiction].
  - set (s := parseJstToUtc Date_parse startTimeStr).
    set (e := parseJstToUtc Date_parse endTimeStr).
    pose proof (filterPoints_nil Math_sin Math_cos Math_atan2 s e
                  (maxSpeedKmhOf speedFilterType) (sortByTime (c :: cs))) as N.
    rewrite forallb_forall in N.
    destruct (filterPoints _ _ _ _ _ _ _) as [|k ks] eqn:F.
    + split; [|reflexivity]. intros _. split; [discriminate|].
      intros p I. apply negb_true_iff. apply N; [reflexivity|].
      apply (Permutation_in p (Permutation_sym (sortByTime_perm (c :: cs))) I).
    + split.
      * intros H. now apply serialize_not_Error in H.
      * intros [_ H]. assert (E : k :: ks = []); [|discriminate E].
        apply N. intros p I. apply negb_true_iff. apply H.
        apply (Permutation_in p (sortByTime_perm (c :: cs)) I).
Qed.

(** ** The join of fixes and altitudes *)

Section MapShape.
Context {V : Type}.

Lemma Map_set_length (k : key) (v : V) (m : Map V) :
  (List.length (Map_set k v m) <= S (List.length m))%nat.
Proof.
  induction m as [|[k' v'] m IH]; simpl; [lia|].
  destruct (key_eqb k k'); simpl; lia.
Qed.

Lemma countKey_In (k : key) (m : Map V) :
  In k (map fst m) -> (1 <= countKey k m)%nat.
Proof.
  unfold countKey. induction m as [|[k' v'] m IH]; simpl; [tauto|].
  intros [->|H].
  - rewrite key_eqb_refl. simpl. lia.
  - destruct (key_eqb k k'); simpl; [lia | now apply IH].
Qed.

Lemma uniqueKeys_NoDup (m : Map V) : uniqueKeys m -> NoDup (map fst m).
Proof.
  induction m as [|[k v] m IH]; intros U; simpl; constructor.
  - intros I. apply countKey_In in I. specialize (U k).
    unfold countKey in U, I. simpl in U. rewrite key_eqb_refl in U. simpl in U. lia.
  - apply IH. intros k'. specialize (U k'). unfold countKey in *. simpl in U.
    destruct (key_eqb k' k); simpl in U; lia.
Qed.

Lemma Map_get_In (k : key) (v : V) (m : Map V) :
  Map_get k m = Some v -> In (k, v) m.
Proof.
  induction m as [|[k' v'] m IH]; simpl; [discriminate|].
  destruct (key_eqb k k') eqn:E.
  - intros [= ->]. apply key_eqb_eq in E. subst. now left.
  - intros H. right. now apply IH.
Qed.

End MapShape.

Lemma scan_length (lines : list string) (st : maps) :
  (List.length (rmcPoints (fold_left scanLine lines st))
   <= List.length (rmcPoints st) + List.length lines)%nat.
Proof.
  revert st. induction lines as [|l lines IH]; intros st; simpl; [lia|].
  specialize (IH (scanLine st l)). rewrite scanLine_cases in IH at 2.
  destruct (fixOf l) as [r|]; simpl in IH.
  - pose proof (Map_set_length (timeKeyOf (time r)) r (rmcPoints st)). lia.
  - destruct (altOf l); simpl in IH; lia.
Qed.

Lemma combine_keys (st : maps) :
  Forall (fun e => fst e = timeKeyOf (time (snd e))) (rmcPoints st) ->
  map pointKey (combine st) = map fst (rmcPoints st).
Proof.
  unfold combine. rewrite map_map.
  induction (rmcPoints st) as [|[k r] m IH]; intros F; simpl; [reflexivity|].
  inversion F as [|? ? E F']; subst. simpl in E. rewrite IH by exact F'.
  now rewrite E.
Qed.

(** X6. The merge yields at most one combined point per whole second and
    at most one per line of the file, and the altitude of each combined
    point is the entry of the altitude map under the whole second of the
    point's own time (absent when there is no such entry). *)
Theorem combined_points_join_by_second (fileContent : string) :
  let ps := combinedPoints fileContent in
  NoDup (map pointKey ps)
  /\ (List.length ps <= List.length (lines_of fileContent))%nat
  /\ forall p, In p ps ->
       p_alt p = Map_get (pointKey p) (ggaAlts (scanLines (lines_of fileContent))).
Proof.
  unfold combinedPoints, scanLines.
  set (lines := lines_of fileContent).
  assert (F : Forall (fun e => fst e = timeKeyOf (time (snd e)))
                (rmcPoints (fold_left scanLine lines noMaps))).
  { apply scan_fix_keys. constructor. }
  split; [|split].
  - rewrite (combine_keys _ F). apply uniqueKeys_NoDup.
    apply (scan_uniqueKeys lines noMaps); intros k; unfold countKey; simpl; lia.
  - unfold combine. rewrite length_map.
    pose proof (scan_length lines noMaps) as L. simpl in L. exact L.
  - intros p I. unfold combine in I. apply in_map_iff in I.
    destruct I as [[k r] [<- I]]. unfold pointKey. simpl.
    rewrite Forall_forall in F. specialize (F _ I). simpl in F. now rewrite F.
Qed.

Lemma altOf_fixOf (line : string) (g : ggaData) : altOf line = Some g -> fixOf line = None.
Proof.
  unfold fixOf, altOf.
  destruct (parseNmeaSentence (trim line)) as [[r'|g']|]; [discriminate | reflexivity | reflexivity].
Qed.

(** X7. When a line that stores a fix and a GGA line have the same
    whole-second key, the file of the two lines has one combined point, the
    fix with the altitude of the GGA line, whichever of the two lines comes
    first. *)
Theorem altitude_joins_on_equal_keys (rline gline : string) (r : rmcData) (g : ggaData) :
  fixOf rline = Some r ->
  altOf gline = Some g ->
  timeKeyOf (time r) = timeKeyOf (gga_time g) ->
  combine (scanLines [rline; gline]) = [fixWithAlt r (alt g)]
  /\ combine (scanLines [gline; rline]) = [fixWithAlt r (alt g)].
Proof.
  intros Fr Ag K.
  pose proof (altOf_fixOf _ _ Ag) as Fg.
  unfold scanLines, combine. simpl.
  rewrite !scanLine_cases, Fr, Fg, Ag. simpl.
  rewrite K, key_eqb_refl. split; reflexivity.
Qed.

Lemma altitude_joins_on_equal_keys_witness :
  combine (scanLines [rmcLine; longSecondsGga]) = [fixWithAlt sampleFix (ofZ 100)]
  /\ combine (scanLines [longSecondsGga; rmcLine]) = [fixWithAlt sampleFix (ofZ 100)].
Proof.
  apply (altitude_joins_on_equal_keys rmcLine longSecondsGga sampleFix sampleAlt);
    vm_compute; reflexivity.
Defined.

(** ** The GPX document *)

Lemma string_app_assoc (a b c : string) : (a ++ b) ++ c = a ++ b ++ c.
Proof. induction a as [|x a IH]; simpl; [reflexivity | now rewrite IH]. Qed.

Lemma serialize_shape_aux (ps : list point) (gpxXml : string) :
  serialize gpxXml ps =
  if forallb hasValidTime ps
  then Return (gpxXml ++ concatStrings (map trkptOf ps) ++ gpxFooter)
  else Throw RangeError_InvalidTime.
Proof.
  revert gpxXml. induction ps as [|p ps IH]; intros gpxXml; [reflexivity|].
  cbn [serialize forallb map concatStrings fold_right].
  unfold hasValidTime at 1, trkptOf at 1, toISOString.
  destruct (p_time p) as [t|]; [|reflexivity].
  cbn [option_map andb]. rewrite IH.
  destruct (forallb hasValidTime ps); [|reflexivity].
  f_equal. fold (concatStrings (map trkptOf ps)).
  now rewrite !string_app_assoc.
Qed.

Lemma startsWith_app (n a b : string) :
  startsWith n a = true -> startsWith n (a ++ b) = true.
Proof.
  revert a. induction n as [|c n IH]; intros a H; [reflexivity|].
  destruct a as [|d a]; [discriminate H|]. simpl in *.
  apply andb_true_iff in H. destruct H as [H1 H2]. now rewrite H1, IH.
Qed.

Lemma contains_app_l (n a b : string) :
  contains n a = true -> contains n (a ++ b) = true.
Proof.
  induction a as [|d a IH]; intros H.
  - simpl in H. rewrite orb_false_r in H.
    destruct n as [|c n]; [|discriminate H]. destruct b; reflexivity.
  - change (contains n (String d a)) with (startsWith n (String d a) || contains n a) in H.
    change (contains n (String d a ++ b))
      with (startsWith n (String d a ++ b) || contains n (a ++ b)).
    apply orb_true_iff in H. destruct H as [H|H].
    + now rewrite (startsWith_app _ _ b H).
    + rewrite (IH H). apply orb_true_r.
Qed.

Lemma contains_app_r (n a b : string) :
  contains n b = true -> contains n (a ++ b) = true.
Proof.
  intros H. induction a as [|d a IH]; [exact H|].
  change (contains n (String d a ++ b))
    with (startsWith n (String d a ++ b) || contains n (a ++ b)).
  rewrite IH. apply orb_true_r.
Qed.

Lemma trkpt_has_ele (p : point) (timeIso : string) :
  hasAltitude p = true -> contains "<ele>" (trkpt p timeIso) = true.
Proof.
  unfold hasAltitude, trkpt. destruct (p_alt p) as [a|]; [intros _ | discriminate].
  repeat (apply contains_app_r; try (apply contains_app_l; reflexivity)).
Qed.

Lemma serialize_extends (ps : list point) (gpxXml result : string) :
  serialize gpxXml ps = Return result -> exists rest, result = gpxXml ++ rest.
Proof.
  rewrite serialize_shape_aux. destruct (forallb hasValidTime ps); [|discriminate].
  intros [= <-]. eexists. reflexivity.
Qed.

(** X8. The four outcomes of [convertToGpx]: the "no valid points" error
    when the merge yields nothing; the "no points left" error when the
    filters keep nothing; the RangeError when a point that is kept has an
    invalid Date; and otherwise the document, which is the header, the
    block of each kept point in order, and the closing tags. *)
Theorem convertToGpx_outcome
        (Math_sin Math_cos : number -> number) (Math_atan2 : number -> number -> number)
        (Date_parse : string -> Date)
        (fileContent speedFilterType startTimeStr endTimeStr : string) :
  let kept :=
    filterPoints Math_sin Math_cos Math_atan2
      (parseJstToUtc Date_parse startTimeStr) (parseJstToUtc Date_parse endTimeStr)
      (maxSpeedKmhOf speedFilterType) (sortByTime (combinedPoints fileContent)) in
  convertToGpx Math_sin Math_cos Math_atan2 Date_parse
    fileContent speedFilterType startTimeStr endTimeStr =
  match combinedPoints fileContent, kept with
  | [], _ => Throw Error_NoValidPoints
  | _ :: _, [] => Throw Error_NoPointsLeft
  | _ :: _, _ :: _ =>
      if forallb hasValidTime kept
      then Return (gpxHeader ++ concatStrings (map trkptOf kept) ++ gpxFooter)
      else Throw RangeError_InvalidTime
  end.
Proof.
  cbv zeta. unfold convertToGpx.
  destruct (combinedPoints fileContent) as [|c cs]; [reflexivity|].
  destruct (filterPoints _ _ _ _ _ _ _) as [|k ks]; [reflexivity|].
  apply serialize_shape_aux.
Qed.

Lemma concat_has (n : string) (p : point) (ps : list point) :
  In p ps -> contains n (trkptOf p) = true ->
  contains n (concatStrings (map trkptOf ps)) = true.
Proof.
  intros I H. induction ps as [|q ps IH]; [contradiction|].
  simpl. destruct I as [->|I].
  - now apply contains_app_l.
  - apply contains_app_r. now apply IH.
Qed.

(** X9. A document that the serializer returns contains an <ele> element
    exactly when one of its points has an altitude. *)
Theorem ele_iff_altitude (ps : list point) (gpxXml : string) :
  serialize gpxHeader ps = Return gpxXml ->
  contains "<ele>" gpxXml = existsb hasAltitude ps.
Proof.
  intros H. destruct (existsb hasAltitude ps) eqn:E.
  - apply existsb_exists in E. destruct E as [p [I A]].
    rewrite serialize_shape_aux in H.
    destruct (forallb hasValidTime ps) eqn:V; [|discriminate H].
    injection H as <-.
    apply (contains_app_r "<ele>" gpxHeader).
    apply (contains_app_l "<ele>" (concatStrings (map trkptOf ps)) gpxFooter).
    apply (concat_has _ p ps I).
    rewrite forallb_forall in V. specialize (V p I).
    unfold hasValidTime in V. unfold trkptOf.
    destruct (p_time p) as [t|]; [|discriminate V].
    now apply trkpt_has_ele.
  - apply noEleStart_contains.
    apply (serialize_noEleStart ps gpxHeader); [reflexivity | | exact H].
    intros p I. destruct (p_alt p) as [a|] eqn:A; [|reflexivity].
    assert (X : existsb hasAltitude ps = true).
    { apply existsb_exists. exists p. split; [exact I|].
      unfold hasAltitude. now rewrite A. }
    congruence.
Qed.

Lemma ele_iff_altitude_witness :
  (exists gpxXml,
      serialize gpxHeader [plainPoint; highPoint] = Return gpxXml
      /\ contains "<ele>" gpxXml = true)
  /\ (exists gpxXml,
      serialize gpxHeader [plainPoint] = Return gpxXml
      /\ contains "<ele>" gpxXml = false).
Proof.
  split; eexists; (split; [vm_compute; reflexivity|]).
  - rewrite (ele_iff_altitude [plainPoint; highPoint]); [reflexivity|].
    vm_compute. reflexivity.
  - rewrite (ele_iff_altitude [plainPoint]); [reflexivity|].
    vm_compute. reflexivity.
Defined.

(** ** When a sentence is discarded *)

(** X10. [parseNmeaSentence] returns no record exactly when the sentence
    type is neither RMC nor GGA, or the line has fewer than 10 fields, or it
    is an RMC sentence with an empty latitude, longitude or hemisphere
    field, or it is a GGA sentence whose altitude field does not begin with
    a number. An RMC sentence is never discarded for its time, date or
    status, nor for coordinate fields that are not numeric. *)
Theorem parseNmeaSentence_null_iff (line : string) :
  let parts := split "," line in
  parseNmeaSentence line = None
  <-> (sentenceTypeOf parts <> "RMC" /\ sentenceTypeOf parts <> "GGA")
      \/ (List.length parts < 10)%nat
      \/ (sentenceTypeOf parts = "RMC"
          /\ (part 3 parts = "" \/ part 4 parts = ""
              \/ part 5 parts = "" \/ part 6 parts = ""))
      \/ (sentenceTypeOf parts = "GGA" /\ isNaN (parseFloat (part 9 parts)) = true).
Proof.
  intros parts. unfold parseNmeaSentence. fold parts.
  destruct (String.eqb_spec (sentenceTypeOf parts) "RMC") as [R|R].
  - destruct (Nat.ltb_spec (List.length parts) 10) as [L|L].
    + split; [intros _; right; now left | reflexivity].
    + unfold parseNmeaTime.
      pose proof (parseNmeaCoordinate_null (part 3 parts) (part 4 parts)) as A.
      pose proof (parseNmeaCoordinate_null (part 5 parts) (part 6 parts)) as B.
      destruct (parseNmeaCoordinate (part 3 parts) (part 4 parts)) as [la|].
      * destruct (parseNmeaCoordinate (part 5 parts) (part 6 parts)) as [lo|].
        -- split; [discriminate|].
           intros [[N _]|[H|[[_ H]|[G _]]]]; try contradiction; try lia; try congruence.
           destruct A as [_ A], B as [_ B].
           destruct H as [H|[H|[H|H]]];
             [discriminate (A (or_introl H)) | discriminate (A (or_intror H))
              | discriminate (B (or_introl H)) | discriminate (B (or_intror H))].
        -- split; [|reflexivity]. intros _. right. right. left. split; [exact R|].
           destruct B as [B _]. destruct (B eq_refl); tauto.
      * split; [|reflexivity]. intros _. right. right. left. split; [exact R|].
        destruct A as [A _]. destruct (A eq_refl); tauto.
  - destruct (String.eqb_spec (sentenceTypeOf parts) "GGA") as [G|G].
    + destruct (Nat.ltb_spec (List.length parts) 10) as [L|L].
      * split; [intros _; right; now left | reflexivity].
      * destruct (isNaN (parseFloat (part 9 parts))) eqn:N.
        -- split; [|reflexivity]. intros _. right. right. right. now split.
        -- split; [discriminate|].
           intros [[_ H]|[H|[[H _]|[_ H]]]]; try contradiction; try lia; discriminate H.
    + split; [|reflexivity]. intros _. left. now split.
Qed.

(** ** The distance of a point from itself *)

Lemma sub_self (x : number) : finite x = true -> sub x x = S754_zero false.
Proof.
  destruct x as [s|s| |s m e]; try discriminate; intros _.
  - now destruct s.
  - unfold sub, SFsub. rewrite Z.sub_diag. reflexivity.
Qed.

Lemma mul_zero_r (x : number) (s : bool) :
  finite x = true -> exists s', mul x (S754_zero s) = S754_zero s'.
Proof.
  destruct x as [sx|sx| |sx m e]; try discriminate; intros _; eexists; reflexivity.
Qed.

Section SelfDistance.
Variables Math_sin Math_cos : number -> number.
Variable Math_atan2 : number -> number -> number.

(** X11. The distance of a position from itself is +0, for finite
    coordinates and a host whose sine and arc tangent are exact at +0 (as
    ECMAScript requires) and whose cosine of the latitude has a finite
    square; so a fix at the position of the anchor is never rejected by the
    speed filter, whatever the cap and the elapsed time are. *)
Theorem getDistance_self (la lo : number) (maxSpeedKmh : number) (a b : point) :
  finite la = true -> finite lo = true ->
  Math_sin (S754_zero false) = S754_zero false ->
  Math_atan2 (S754_zero false) (ofZ 1) = S754_zero false ->
  finite (mul (cosOfLatitude Math_cos la) (cosOfLatitude Math_cos la)) = true ->
  p_lat a = la -> p_lon a = lo -> p_lat b = la -> p_lon b = lo ->
  getDistance Math_sin Math_cos Math_atan2 la lo la lo = S754_zero false
  /\ tooFast Math_sin Math_cos Math_atan2 maxSpeedKmh a b = false.
Proof.
  intros Fla Flo Hsin Hatan Hcos A1 A2 B1 B2.
  assert (D : getDistance Math_sin Math_cos Math_atan2 la lo la lo = S754_zero false).
  { unfold getDistance. rewrite (sub_self la Fla), (sub_self lo Flo).
    change (mul (S754_zero false) (div Math_PI (ofZ 180))) with (S754_zero false).
    change (div (S754_zero false) (ofZ 2)) with (S754_zero false).
    rewrite Hsin. fold (cosOfLatitude Math_cos la).
    destruct (mul_zero_r _ false Hcos) as [s1 E1]. rewrite E1.
    change (mul (S754_zero false) (S754_zero false)) with (S754_zero false).
    change (mul (S754_zero s1) (S754_zero false)) with (S754_zero (xorb s1 false)).
    replace (add (S754_zero false) (S754_zero (xorb s1 false))) with (S754_zero false)
      by (now destruct s1).
    change (Math_sqrt (S754_zero false)) with (S754_zero false).
    change (Math_sqrt (sub (ofZ 1) (S754_zero false))) with (ofZ 1).
    rewrite Hatan. reflexivity. }
  split; [exact D|].
  unfold tooFast, distanceKm. rewrite A1, A2, B1, B2, D.
  change (gt (S754_zero false) (ofZ 0)) with false. now rewrite andb_false_r.
Qed.

End SelfDistance.

Lemma getDistance_self_witness :
  getDistance linear_sin unit_cos ratio_atan2
    (p_lat P0_sample) (p_lon P0_sample) (p_lat P0_sample) (p_lon P0_sample)
  = S754_zero false
  /\ tooFast linear_sin unit_cos ratio_atan2 (ofZ 10) P0_sample P0_sample = false.
Proof.
  apply (getDistance_self linear_sin unit_cos ratio_atan2
           (p_lat P0_sample) (p_lon P0_sample) (ofZ 10) P0_sample P0_sample);
    vm_compute; reflexivity.
Defined.
